(** * indexbdmv_parser: a shallow embedding of [indexbdmv_parser/__init__.py]

    The module has one class, [IndexBDMV], whose constructor reads the head of
    an INDEX.BDMV file, and two functions, [find_index_file] and
    [is_uhd_disc].  All three talk to the file system, so the embedding is
    parametrised by an explicit file-system value and every function that can
    raise returns a [result].

    Modelling choices, stated once:
    - Python [bytes] are [list byte]; Python [str] values are [string]
      (after an ASCII decode every character is below 128).
    - The file system is a finite tree of regular files and directories
      together with a current working directory; it holds what the process
      can reach.  There are no symbolic links, and a file the tree holds can
      be opened and read.
    - How a call fails beyond "not there" is the business of a [platform]:
      the errno with which [os.stat] fails on a path, if it does, the errno
      with which [os.scandir] fails on a directory, if it does, and the
      number of directory levels the recursive generators of [rglob] can go
      down before the interpreter raises [RecursionError].  The properties
      are stated for every platform; [posix] is one of them, with the limits
      of Linux on the length of names and paths.  The constructor is
      modelled on the tree alone.
    - [pathlib] is the one of Python 3.11 in the POSIX flavour
      (case-sensitive names, "/" as the separator).  [Path.exists] and
      [Path.is_dir] hand the string form of the path to [os.stat], return
      [False] on ENOENT, ENOTDIR, EBADF and ELOOP and raise on every other
      errno; [os.path.exists], which the constructor uses, returns [False] on
      all of them.
    - [Path.rglob] is a generator: [find_index_file] takes its first value
      and stops.  A generator is modelled by the finite trace of what it
      yields, ended by [Done] or by the exception it raises; the walk goes
      through the directories in pre-order, children in listing order, and
      the pattern, a name without wildcard characters, is looked up in every
      directory as it is visited. *)

From Stdlib Require Import List String Ascii Bool Arith NArith Lia.
From Stdlib.Strings Require Import Byte.
Import ListNotations.

Open Scope string_scope.
Open Scope list_scope.

(** ** Exceptions and the result monad *)

Inductive exn : Type :=
| FileNotFoundError (msg : string)
| IsADirectoryError
| UnicodeDecodeError
| TypeError
| OSError (errno : nat)
| RecursionError.

Inductive result (A : Type) : Type :=
| Ok (a : A)
| Raise (e : exn).

Arguments Ok {A} a.
Arguments Raise {A} e.

Definition bind {A B : Type} (m : result A) (k : A -> result B) : result B :=
  match m with
  | Ok a => k a
  | Raise e => Raise e
  end.

Notation "x <- m ;; k" := (bind m (fun x => k))
  (at level 61, m at next level, right associativity).

(** [try: body except Exception: handler] *)
Definition try_except {A : Type} (body : result A) (handler : exn -> result A)
  : result A :=
  match body with
  | Ok a => Ok a
  | Raise e => handler e
  end.

(** ** Bytes and strings *)

(** [len(buffer)], [buffer[:n]] and [f.read(n)] on an in-memory content are
    [length] and [firstn]. *)

Inductive error_handler : Type := strict | ignore.

(** [bytes.decode('ascii', errors=...)]: a byte below 128 is its character;
    any other byte raises under [strict] and is dropped under [ignore]. *)
Fixpoint decode_ascii (errors : error_handler) (b : list byte) : result string :=
  match b with
  | [] => Ok EmptyString
  | x :: b' =>
      if N.ltb (Byte.to_N x) 128 then
        s <- decode_ascii errors b' ;; Ok (String (ascii_of_byte x) s)
      else
        match errors with
        | strict => Raise UnicodeDecodeError
        | ignore => decode_ascii errors b'
        end
  end.

Fixpoint mem_char (c : ascii) (chars : string) : bool :=
  match chars with
  | EmptyString => false
  | String d chars' => Ascii.eqb c d || mem_char c chars'
  end.

(** [str.rstrip(chars)]: drop the longest suffix made of characters of
    [chars]. *)
Fixpoint rstrip (chars : string) (s : string) : string :=
  match s with
  | EmptyString => EmptyString
  | String c s' =>
      match rstrip chars s' with
      | EmptyString => if mem_char c chars then EmptyString else String c EmptyString
      | r => String c r
      end
  end.

Definition NUL : string := String zero EmptyString.

(** ** Paths

    A [PurePosixPath] is its root ([""], ["/"] or ["//"]) and the list of its
    components after the root. *)

Record PurePath : Type := mkPath { root : string; parts : list string }.

Definition SEP : ascii := "/"%char.

(** [s.split("/")] *)
Fixpoint split_sep (s : string) : list string :=
  match s with
  | EmptyString => [EmptyString]
  | String c s' =>
      if Ascii.eqb c SEP then EmptyString :: split_sep s'
      else match split_sep s' with
           | [] => [String c EmptyString]
           | w :: ws => String c w :: ws
           end
  end.

Fixpoint count_leading_sep (s : string) : nat :=
  match s with
  | String c s' => if Ascii.eqb c SEP then S (count_leading_sep s') else 0
  | EmptyString => 0
  end.

(** [splitroot]: exactly two leading separators are kept as the root ["//"],
    any other positive number collapses to ["/"]. *)
Definition splitroot (s : string) : string :=
  match count_leading_sep s with
  | 0 => ""
  | 2 => "//"
  | _ => "/"
  end.

(** A component survives parsing when it is neither empty nor ["."]. *)
Definition keep_part (x : string) : bool :=
  negb (String.eqb x "") && negb (String.eqb x ".").

(** [Path(s)] *)
Definition Path (s : string) : PurePath :=
  {| root := splitroot s; parts := filter keep_part (split_sep s) |}.

(** [str(p)] *)
Definition str (p : PurePath) : string :=
  let s := (root p ++ String.concat "/" (parts p))%string in
  if String.eqb s "" then "." else s.

(** [p / s]: an absolute right operand replaces the left one. *)
Definition div (p : PurePath) (s : string) : PurePath :=
  let q := Path s in
  if String.eqb (root q) "" then {| root := root p; parts := parts p ++ parts q |}
  else q.

Notation "p // s" := (div p s) (at level 40, left associativity).

(** [p._make_child_relpath(name)], used by the directory walk on the names
    that [os.scandir] lists. *)
Definition make_child_relpath (p : PurePath) (name : string) : PurePath :=
  {| root := root p; parts := parts p ++ [name] |}.

(** ** The file system *)

#[warning="-register-all"]
Inductive node : Type :=
| File (content : list byte)
| Dir (entries : list (string * node)).

Record filesystem : Type := mkFS { fs_root : node; fs_cwd : list string }.

Fixpoint lookup_entry (name : string) (es : list (string * node)) : option node :=
  match es with
  | [] => None
  | (n, c) :: es' => if String.eqb n name then Some c else lookup_entry name es'
  end.

(** One step of path resolution.  The stack holds the node reached so far and
    its ancestors, the innermost first.  Every component, also an empty one,
    ["."] and [".."], is resolved inside a directory. *)
Definition walk_step (stack : list node) (comp : string) : option (list node) :=
  match stack with
  | Dir es :: up =>
      if String.eqb comp "" || String.eqb comp "." then Some stack
      else if String.eqb comp ".." then
        Some (match up with [] => stack | _ => up end)
      else match lookup_entry comp es with
           | Some c => Some (c :: stack)
           | None => None
           end
  | _ => None
  end.

Fixpoint walk (stack : list node) (comps : list string) : option (list node) :=
  match comps with
  | [] => Some stack
  | c :: comps' =>
      match walk_step stack c with
      | Some stack' => walk stack' comps'
      | None => None
      end
  end.

(** What the operating system finds at the path [s]: an empty path names
    nothing, a path that starts with a separator is resolved from the root,
    any other path from the working directory. *)
Definition os_resolve (fs : filesystem) (s : string) : option node :=
  if String.eqb s "" then None
  else
    let start :=
      if Nat.eqb (count_leading_sep s) 0 then walk [fs_root fs] (fs_cwd fs)
      else Some [fs_root fs] in
    match start with
    | Some stack =>
        match walk stack (split_sep s) with
        | Some (n :: _) => Some n
        | _ => None
        end
    | None => None
    end.

(** [os.path.exists(s)] *)
Definition os_path_exists (fs : filesystem) (s : string) : bool :=
  match os_resolve fs s with Some _ => true | None => false end.

(** [os.path.isdir(s)] *)
Definition os_path_isdir (fs : filesystem) (s : string) : bool :=
  match os_resolve fs s with Some (Dir _) => true | _ => false end.

(** [open(s, mode="rb")] followed by reading: the whole content of a regular
    file. *)
Definition open_rb (fs : filesystem) (s : string) : result (list byte) :=
  match os_resolve fs s with
  | Some (File content) => Ok content
  | Some (Dir _) => Raise IsADirectoryError
  | None => Raise (FileNotFoundError s)
  end.

(** ** Platforms: how the calls fail *)

Definition EPERM : nat := 1.
Definition ENOENT : nat := 2.
Definition EBADF : nat := 9.
Definition EACCES : nat := 13.
Definition ENOTDIR : nat := 20.
Definition ENAMETOOLONG : nat := 36.
Definition ELOOP : nat := 40.

(** A platform: [stat_fault s] is the errno with which [os.stat] fails on
    the path [s], [None] when it answers from the tree ("not there" is an
    answer); [scandir_fault s] is the errno with which [os.scandir] fails on
    the directory [s]; [recursion_limit] is the number of directory levels
    that the interpreter lets the walk go down. *)
Record platform : Type := mkPlatform {
  stat_fault : string -> option nat;
  scandir_fault : string -> option nat;
  recursion_limit : nat
}.

(** [_ignore_error]: the errnos that [pathlib] takes for "not there". *)
Definition ignore_error (errno : nat) : bool :=
  existsb (Nat.eqb errno) [ENOENT; ENOTDIR; EBADF; ELOOP].

(** [except PermissionError]: an [OSError] with errno EACCES or EPERM. *)
Definition is_PermissionError (e : exn) : bool :=
  match e with
  | OSError errno => Nat.eqb errno EACCES || Nat.eqb errno EPERM
  | _ => false
  end.

(** [p.exists()]: [False] when [os.stat] fails with an ignored errno, the
    exception when it fails with another one. *)
Definition exists_ (pf : platform) (fs : filesystem) (p : PurePath) : result bool :=
  match stat_fault pf (str p) with
  | Some errno => if ignore_error errno then Ok false else Raise (OSError errno)
  | None => Ok (os_path_exists fs (str p))
  end.

(** [p.is_dir()] *)
Definition is_dir (pf : platform) (fs : filesystem) (p : PurePath) : result bool :=
  match stat_fault pf (str p) with
  | Some errno => if ignore_error errno then Ok false else Raise (OSError errno)
  | None => Ok (os_path_isdir fs (str p))
  end.

(** ** Generators *)

Inductive gen (A : Type) : Type :=
| Done
| Yield (a : A) (rest : gen A)
| Throw (e : exn).

Arguments Done {A}.
Arguments Yield {A} a rest.
Arguments Throw {A} e.

(** One generator after another; an exception ends both. *)
Fixpoint gen_app {A : Type} (g1 g2 : gen A) : gen A :=
  match g1 with
  | Done => g2
  | Yield a g => Yield a (gen_app g g2)
  | Throw e => Throw e
  end.

Fixpoint gen_concat {A : Type} (l : list (gen A)) : gen A :=
  match l with
  | [] => Done
  | g :: l' => gen_app g (gen_concat l')
  end.

(** The values a generator yields before it ends. *)
Fixpoint yields {A : Type} (g : gen A) : list A :=
  match g with
  | Yield a g' => a :: yields g'
  | _ => []
  end.

(** ** The recursive search of [pathlib] *)

(** [_RecursiveWildcardSelector._iterate_directories] on the directory [n]
    found at [p], [depth] levels below the start: [p] itself, then, after
    listing it, every sub-directory in listing order, each followed by its
    own.  A listing that fails with [PermissionError] ends the walk of that
    directory silently; any other failure is raised.  Going one level further
    down than the interpreter allows raises [RecursionError]. *)
Fixpoint iterate_directories (pf : platform) (depth : nat) (p : PurePath) (n : node)
         {struct n} : gen PurePath :=
  Yield p
    match scandir_fault pf (str p) with
    | Some errno =>
        if is_PermissionError (OSError errno) then Done else Throw (OSError errno)
    | None =>
        match n with
        | File _ => Throw (OSError ENOTDIR)
        | Dir es =>
            (fix over (es : list (string * node)) : gen PurePath :=
               match es with
               | [] => Done
               | (name, c) :: es' =>
                   gen_app
                     match c with
                     | Dir _ =>
                         if Nat.ltb (recursion_limit pf) (S depth) then Throw RecursionError
                         else iterate_directories pf (S depth) (make_child_relpath p name) c
                     | File _ => Done
                     end
                     (over es')
               end) es
        end
    end.

(** [_PreciseSelector._select_from] for the last part of the pattern: the
    child called [name], if it exists; a [PermissionError] of the test is
    caught. *)
Definition precise_select (pf : platform) (fs : filesystem) (name : string)
           (parent_path : PurePath) : gen PurePath :=
  let path := make_child_relpath parent_path name in
  match exists_ pf fs path with
  | Ok true => Yield path Done
  | Ok false => Done
  | Raise e => if is_PermissionError e then Done else Throw e
  end.

(** [_RecursiveWildcardSelector._select_from]: the precise selector on every
    directory of the walk, as the walk reaches it.  (Its own handler for
    [PermissionError] has nothing to catch: the two generators it drives
    catch that exception themselves.) *)
Fixpoint recursive_select (pf : platform) (fs : filesystem) (name : string)
         (dirs : gen PurePath) : gen PurePath :=
  match dirs with
  | Done => Done
  | Yield starting_point dirs' =>
      gen_app (precise_select pf fs name starting_point)
              (recursive_select pf fs name dirs')
  | Throw e => Throw e
  end.

(** [p.rglob(name)] for a [name] without wildcard characters:
    [select_from] returns nothing unless [p] is a directory. *)
Definition rglob (pf : platform) (fs : filesystem) (p : PurePath) (name : string)
  : gen PurePath :=
  match is_dir pf fs p with
  | Ok true =>
      match os_resolve fs (str p) with
      | Some n => recursive_select pf fs name (iterate_directories pf 0 p n)
      | None => Done
      end
  | Ok false => Done
  | Raise e => Throw e
  end.

(** ** The module *)

(** The attributes of an [IndexBDMV] object. *)
Record IndexBDMV : Type := mkIndexBDMV {
  filename : string;
  is_uhd : bool;
  version : option string
}.

(** [IndexBDMV.__init__] *)
Definition IndexBDMV_init (fs : filesystem) (filename : string) : result IndexBDMV :=
  if negb (os_path_exists fs filename) then
    Raise (FileNotFoundError ("INDEX.BDMV file not found: " ++ filename))
  else
    let self := {| filename := filename; is_uhd := false; version := None |} in
    content <- open_rb fs filename ;;
    let buffer := firstn 8 content in
    if Nat.leb 4 (List.length buffer) then
      let version_bytes := firstn 4 buffer in
      try_except
        (decoded <- decode_ascii ignore version_bytes ;;
         let v := rstrip NUL decoded in
         Ok {| filename := filename;
               is_uhd := String.eqb v "INDX0300";
               version := Some v |})
        (fun _ => Ok {| filename := filename; is_uhd := false; version := None |})
    else Ok self.

(** How an f-string renders the two attributes: [None] as ["None"], a string
    as itself, a boolean as ["True"] or ["False"]. *)
Definition format_version (v : option string) : string :=
  match v with
  | None => "None"
  | Some s => s
  end.

Definition format_bool (x : bool) : string := if x then "True" else "False".

(** [IndexBDMV.__repr__] *)
Definition IndexBDMV_repr (self : IndexBDMV) : string :=
  ("<IndexBDMV " ++
   String.concat ", "
     [("version='" ++ format_version (version self) ++ "'")%string;
      ("is_uhd=" ++ format_bool (is_uhd self))%string] ++
   ">")%string.

(** [find_index_file] *)
Definition find_index_file (pf : platform) (fs : filesystem) (directory : string)
  : result (option string) :=
  let directory_path := Path directory in
  let index_path := directory_path // "BDMV" // "INDEX.BDMV" in
  found <- exists_ pf fs index_path ;;
  if found then Ok (Some (str index_path))
  else
    let index_path := directory_path // "INDEX.BDMV" in
    found <- exists_ pf fs index_path ;;
    if found then Ok (Some (str index_path))
    else
      match rglob pf fs directory_path "INDEX.BDMV" with
      | Yield path _ => Ok (Some (str path))
      | Throw e => Raise e
      | Done =>
          match rglob pf fs directory_path "index.bdmv" with
          | Yield path _ => Ok (Some (str path))
          | Throw e => Raise e
          | Done => Ok None
          end
      end.

(** Truth value of an [Optional[str]]: [None] and the empty string are
    false. *)
Definition truthy (o : option string) : bool :=
  match o with
  | None => false
  | Some s => negb (String.eqb s "")
  end.

(** [is_uhd_disc].  [find_index_file] is called before the [try]; the
    constructor is only reached with a string: [None] is not truthy. *)
Definition is_uhd_disc (pf : platform) (fs : filesystem) (directory : string)
  : result bool :=
  index_file <- find_index_file pf fs directory ;;
  if negb (truthy index_file) then Ok false
  else
    try_except
      (index <- match index_file with
                | Some f => IndexBDMV_init fs f
                | None => Raise TypeError
                end ;;
       Ok (is_uhd index))
      (fun _ => Ok false).

(** ** Sample file systems *)

Definition b (s : string) : list byte := list_byte_of_string s.

(** [disc/BDMV/INDEX.BDMV] holding [b"INDX0300\x00\x00"]. *)
Definition uhd_content : list byte := b "INDX0300" ++ [x00; x00].

Definition uhd_fs : filesystem :=
  {| fs_root := Dir [("disc", Dir [("BDMV", Dir [("INDEX.BDMV", File uhd_content)])])];
     fs_cwd := [] |}.

(** What the constructor makes of that file. *)
Definition uhd_index : IndexBDMV :=
  {| filename := "disc/BDMV/INDEX.BDMV"; is_uhd := false; version := Some "INDX" |}.

(** A directory where the index entry itself is a directory. *)
Definition dir_fs : filesystem :=
  {| fs_root := Dir [("disc", Dir [("BDMV", Dir [("INDEX.BDMV", Dir [])])])];
     fs_cwd := [] |}.

(** A three-byte index file in the working directory. *)
Definition short_fs : filesystem :=
  {| fs_root := Dir [("INDEX.BDMV", File (b "IND"))]; fs_cwd := [] |}.

(** A four-byte, all-null index file in the working directory. *)
Definition null_fs : filesystem :=
  {| fs_root := Dir [("INDEX.BDMV", File [x00; x00; x00; x00])]; fs_cwd := [] |}.

(** A disc with the standard index and, listed before it, a second file of
    the same name in a backup directory. *)
Definition backup_fs : filesystem :=
  {| fs_root :=
       Dir [("disc",
             Dir [("BACKUP", Dir [("INDEX.BDMV", File (b "INDX0100"))]);
                  ("BDMV", Dir [("INDEX.BDMV", File (b "INDX0200"))])])];
     fs_cwd := [] |}.

(** The index two levels down, under a directory that is not [BDMV]. *)
Definition deep_fs : filesystem :=
  {| fs_root :=
       Dir [("disc",
             Dir [("readme.txt", File (b "hello"));
                  ("a", Dir [("b", Dir [("INDEX.BDMV", File (b "INDX0200"))])])])];
     fs_cwd := [] |}.

(** A disc whose names are all in lower case. *)
Definition lower_fs : filesystem :=
  {| fs_root := Dir [("disc", Dir [("bdmv", Dir [("index.bdmv", File (b "INDX0200"))])])];
     fs_cwd := [] |}.

(** ** Well-formed paths

    The components that [Path] produces are not empty, are not ["."] and hold
    no separator.  On such paths, resolving the string form is resolving the
    components one by one. *)

Fixpoint no_sep (s : string) : bool :=
  match s with
  | EmptyString => true
  | String c s' => negb (Ascii.eqb c SEP) && no_sep s'
  end.

Definition valid_part (x : string) : bool := keep_part x && no_sep x.

Definition wf_path (p : PurePath) : Prop :=
  (root p = "" \/ root p = "/" \/ root p = "//") /\
  Forall (fun x => valid_part x = true) (parts p).

Definition start_of (fs : filesystem) (r : string) : option (list node) :=
  if String.eqb r "" then walk [fs_root fs] (fs_cwd fs) else Some [fs_root fs].

Definition resolve_path (fs : filesystem) (p : PurePath) : option node :=
  match start_of fs (root p) with
  | Some (Dir es :: up) =>
      match walk (Dir es :: up) (parts p) with
      | Some (n :: _) => Some n
      | _ => None
      end
  | _ => None
  end.

(** ** Entries below a directory

    A name that a directory can list: a valid component other than [".."].
    [descend n ds] follows the names [ds] down from the node [n]. *)

Definition entry_name (x : string) : bool :=
  valid_part x && negb (String.eqb x "..").

Fixpoint descend (n : node) (ds : list string) : option node :=
  match ds with
  | [] => Some n
  | d :: ds' =>
      match n with
      | Dir es =>
          match lookup_entry d es with
          | Some c => descend c ds'
          | None => None
          end
      | File _ => None
      end
  end.

(** What [iterate_directories] does with one entry of a listing. *)
Definition visit_entry (pf : platform) (depth : nat) (p : PurePath) (e : string * node)
  : gen PurePath :=
  match snd e with
  | Dir _ =>
      if Nat.ltb (recursion_limit pf) (S depth) then Throw RecursionError
      else iterate_directories pf (S depth) (make_child_relpath p (fst e)) (snd e)
  | File _ => Done
  end.

(** A string made of separators only; the empty string is one. *)
Fixpoint all_sep (s : string) : bool :=
  match s with
  | EmptyString => true
  | String c s' => Ascii.eqb c SEP && all_sep s'
  end.

(** A file whose first four bytes spell [None]. *)
Definition none_fs : filesystem :=
  {| fs_root := Dir [("INDEX.BDMV", File (b "None0300")); ("EMPTY.BDMV", File [])];
     fs_cwd := [] |}.

(** A regular file where a disc directory is expected. *)
Definition file_fs : filesystem :=
  {| fs_root := Dir [("disc", File (b "INDX0200"))]; fs_cwd := [] |}.

(** Both spellings on one disc, the lower-case one at the standard place. *)
Definition mixed_fs : filesystem :=
  {| fs_root :=
       Dir [("disc",
             Dir [("bdmv", Dir [("index.bdmv", File (b "INDX0200"))]);
                  ("extras", Dir [("menu", Dir [("INDEX.BDMV", File (b "INDX0100"))])])])];
     fs_cwd := [] |}.

(** ** A sample platform

    Linux without permissions: [os.stat] fails with ENAMETOOLONG on a path
    of [PATH_MAX] bytes or more, and where it has to look up a component
    longer than [NAME_MAX] in a directory; it does not fail otherwise.  A
    directory can be listed unless its path is that long. *)

Definition NAME_MAX : nat := 255.
Definition PATH_MAX : nat := 4096.

Fixpoint walk_fault (stack : list node) (comps : list string) : option nat :=
  match comps with
  | [] => None
  | c :: comps' =>
      match stack with
      | Dir _ :: _ =>
          if Nat.ltb NAME_MAX (String.length c) then Some ENAMETOOLONG
          else match walk_step stack c with
               | Some stack' => walk_fault stack' comps'
               | None => None
               end
      | _ => None
      end
  end.

Definition posix_stat_fault (fs : filesystem) (s : string) : option nat :=
  if Nat.leb PATH_MAX (String.length s) then Some ENAMETOOLONG
  else
    let start :=
      if Nat.eqb (count_leading_sep s) 0 then walk [fs_root fs] (fs_cwd fs)
      else Some [fs_root fs] in
    match start with
    | Some stack => walk_fault stack (split_sep s)
    | None => None
    end.

Definition posix (limit : nat) (fs : filesystem) : platform :=
  {| stat_fault := posix_stat_fault fs;
     scandir_fault := fun s =>
       if Nat.leb PATH_MAX (String.length s) then Some ENAMETOOLONG else None;
     recursion_limit := limit |}.

Fixpoint repeat_char (c : ascii) (n : nat) : string :=
  match n with
  | O => EmptyString
  | S n' => String c (repeat_char c n')
  end.

(** A name of 300 characters. *)
Definition long_name : string := repeat_char "a" 300.

(** No directory listing fails with a permission error. *)
Definition listings_allowed (pf : platform) : Prop :=
  forall s errno, scandir_fault pf s = Some errno ->
                  is_PermissionError (OSError errno) = false.

(** [os.stat] does not fail on [s] with an errno that [pathlib] raises. *)
Definition stat_quiet (pf : platform) (s : string) : Prop :=
  forall errno, stat_fault pf s = Some errno -> ignore_error errno = true.

(** ** The header decoding in the words of the specification

    The version tag is described as a lossy ASCII decode of the first four
    bytes, trailing null characters stripped.  These definitions say that
    with list operations; they are compared with [decode_ascii ignore] and
    [rstrip NUL] below. *)

Definition is_ascii_byte (x : byte) : bool := N.ltb (Byte.to_N x) 128.

Definition lossy_ascii_decode (bs : list byte) : string :=
  string_of_list_ascii (map ascii_of_byte (filter is_ascii_byte bs)).

Fixpoint drop_leading (p : ascii -> bool) (l : list ascii) : list ascii :=
  match l with
  | [] => []
  | c :: l' => if p c then drop_leading p l' else l
  end.

Definition is_nul (c : ascii) : bool := Ascii.eqb c zero.

Definition strip_trailing_nul (s : string) : string :=
  string_of_list_ascii (rev (drop_leading is_nul (rev (list_ascii_of_string s)))).

(** The tag the constructor computes from a content of four bytes or more. *)
Definition tag_of (c : list byte) : string :=
  rstrip NUL (lossy_ascii_decode (firstn 4 c)).

(** * Properties *)

(** ** Decoding and stripping *)

Lemma decode_ascii_ignore_ok (bs : list byte) :
  decode_ascii ignore bs = Ok (lossy_ascii_decode bs).
Proof.
  unfold lossy_ascii_decode.
  induction bs as [|x bs IH]; simpl; [reflexivity|].
  unfold is_ascii_byte at 1.
  destruct (N.ltb (to_N x) 128); simpl.
  - rewrite IH. reflexivity.
  - exact IH.
Qed.

Lemma string_of_list_ascii_length (l : list ascii) :
  String.length (string_of_list_ascii l) = List.length l.
Proof. induction l; simpl; congruence. Qed.

Lemma lossy_ascii_decode_length (bs : list byte) :
  String.length (lossy_ascii_decode bs) <= List.length bs.
Proof.
  unfold lossy_ascii_decode.
  rewrite string_of_list_ascii_length, length_map.
  induction bs as [|x bs IH]; simpl; [lia|].
  destruct (is_ascii_byte x); simpl; lia.
Qed.

Lemma rstrip_length (chars s : string) :
  String.length (rstrip chars s) <= String.length s.
Proof.
  induction s as [|c s IH]; simpl; [lia|].
  destruct (rstrip chars s); simpl in *.
  - destruct (mem_char c chars); simpl; lia.
  - lia.
Qed.

Lemma mem_char_NUL (c : ascii) : mem_char c NUL = is_nul c.
Proof. unfold NUL, is_nul. simpl. apply orb_false_r. Qed.

Lemma drop_leading_snoc (p : ascii -> bool) (l : list ascii) (c : ascii) :
  drop_leading p (l ++ [c]) =
  match drop_leading p l with
  | [] => if p c then [] else [c]
  | r => r ++ [c]
  end.
Proof.
  induction l as [|a l IH]; simpl; [reflexivity|].
  destruct (p a); [exact IH | reflexivity].
Qed.

(** [rstrip] on the character list, written from the front. *)
Lemma rstrip_NUL_cons (c : ascii) (s : string) :
  rstrip NUL (String c s) =
  match rstrip NUL s with
  | EmptyString => if is_nul c then EmptyString else String c EmptyString
  | r => String c r
  end.
Proof. rewrite <- mem_char_NUL. reflexivity. Qed.

Lemma strip_trailing_nul_cons (c : ascii) (s : string) :
  strip_trailing_nul (String c s) =
  match strip_trailing_nul s with
  | EmptyString => if is_nul c then EmptyString else String c EmptyString
  | r => String c r
  end.
Proof.
  unfold strip_trailing_nul. simpl list_ascii_of_string. simpl rev.
  rewrite drop_leading_snoc.
  destruct (drop_leading is_nul (rev (list_ascii_of_string s))) as [|a l] eqn:E.
  - simpl. destruct (is_nul c); reflexivity.
  - rewrite rev_app_distr.
    change (rev [c] ++ rev (a :: l)) with (c :: rev (a :: l)).
    destruct (rev (a :: l)) as [|a' l'] eqn:E'.
    + apply (f_equal (@List.length ascii)) in E'. rewrite length_rev in E'. discriminate.
    + reflexivity.
Qed.

Lemma rstrip_NUL_spec (s : string) : rstrip NUL s = strip_trailing_nul s.
Proof.
  induction s as [|c s IH].
  - reflexivity.
  - rewrite rstrip_NUL_cons, strip_trailing_nul_cons, IH. reflexivity.
Qed.

(** ** The constructor *)

Lemma firstn_4_of_8 (c : list byte) : firstn 4 (firstn 8 c) = firstn 4 c.
Proof. rewrite firstn_firstn. reflexivity. Qed.

Lemma leb_4_firstn_8 (c : list byte) :
  Nat.leb 4 (List.length (firstn 8 c)) = Nat.leb 4 (List.length c).
Proof.
  rewrite length_firstn.
  destruct (Nat.leb 4 (List.length c)) eqn:E.
  - apply Nat.leb_le in E. apply Nat.leb_le. lia.
  - apply Nat.leb_gt in E. apply Nat.leb_gt. lia.
Qed.

(** On a regular file the constructor never raises, and its result is
    determined by the first four bytes. *)
Lemma IndexBDMV_init_file (fs : filesystem) (f : string) (c : list byte) :
  os_resolve fs f = Some (File c) ->
  IndexBDMV_init fs f =
  Ok (if Nat.leb 4 (List.length c)
      then {| filename := f;
              is_uhd := String.eqb (tag_of c) "INDX0300";
              version := Some (tag_of c) |}
      else {| filename := f; is_uhd := false; version := None |}).
Proof.
  intros H. unfold IndexBDMV_init, os_path_exists, open_rb. rewrite H. cbn [negb bind].
  rewrite leb_4_firstn_8.
  destruct (Nat.leb 4 (List.length c)); [|reflexivity].
  rewrite firstn_4_of_8, decode_ascii_ignore_ok. reflexivity.
Qed.


Lemma IndexBDMV_init_Ok_inv (fs : filesystem) (f : string) (r : IndexBDMV) :
  IndexBDMV_init fs f = Ok r -> exists c, os_resolve fs f = Some (File c).
Proof.
  unfold IndexBDMV_init, os_path_exists, open_rb.
  destruct (os_resolve fs f) as [[c|es]|]; simpl; intros H.
  - exists c. reflexivity.
  - discriminate.
  - discriminate.
Qed.

Lemma tag_of_length (c : list byte) : String.length (tag_of c) <= 4.
Proof.
  unfold tag_of.
  pose proof (rstrip_length NUL (lossy_ascii_decode (firstn 4 c))).
  pose proof (lossy_ascii_decode_length (firstn 4 c)).
  pose proof (firstn_le_length 4 c). lia.
Qed.

Lemma tag_of_not_INDX0300 (c : list byte) : String.eqb (tag_of c) "INDX0300" = false.
Proof.
  apply String.eqb_neq. intros E.
  pose proof (tag_of_length c) as L. rewrite E in L. simpl in L. lia.
Qed.

(** C2: for every existing regular file the constructor succeeds, and the
    version it stores is either absent or a string of at most four
    characters; hence it is never ["INDX0300"] and [is_uhd] is false whatever
    the file holds. *)
Theorem version_at_most_4_chars (fs : filesystem) (f : string) (c : list byte) :
  os_resolve fs f = Some (File c) ->
  exists r, IndexBDMV_init fs f = Ok r /\
            (version r = None \/
             exists v, version r = Some v /\ String.length v <= 4) /\
            version r <> Some "INDX0300" /\
            is_uhd r = false.
Proof.
  intros H. rewrite (IndexBDMV_init_file fs f c H).
  eexists. split; [reflexivity|].
  destruct (Nat.leb 4 (List.length c)); simpl.
  - repeat split.
    + right. exists (tag_of c). split; [reflexivity | apply tag_of_length].
    + intros E. injection E as E.
      pose proof (tag_of_not_INDX0300 c) as N.
      rewrite E in N. discriminate.
    + apply tag_of_not_INDX0300.
  - repeat split; [left; reflexivity | discriminate].
Qed.

Lemma version_at_most_4_chars_witness :
  os_resolve uhd_fs "disc/BDMV/INDEX.BDMV" = Some (File uhd_content) /\
  exists r, IndexBDMV_init uhd_fs "disc/BDMV/INDEX.BDMV" = Ok r /\
            (version r = None \/
             exists v, version r = Some v /\ String.length v <= 4) /\
            version r <> Some "INDX0300" /\
            is_uhd r = false.
Proof.
  split; [reflexivity|].
  apply (version_at_most_4_chars uhd_fs "disc/BDMV/INDEX.BDMV" uhd_content).
  reflexivity.
Defined.

(** C5: in every object the constructor returns, [is_uhd] holds exactly when
    the stored version is the string ["INDX0300"]. *)
Theorem is_uhd_iff_version (fs : filesystem) (f : string) (r : IndexBDMV) :
  IndexBDMV_init fs f = Ok r ->
  (is_uhd r = true <-> version r = Some "INDX0300").
Proof.
  intros H. destruct (IndexBDMV_init_Ok_inv fs f r H) as [c Hc].
  rewrite (IndexBDMV_init_file fs f c Hc) in H.
  destruct (Nat.leb 4 (List.length c)); injection H as <-; simpl.
  - split.
    + intros E. apply String.eqb_eq in E. rewrite E. reflexivity.
    + intros E. injection E as E. apply String.eqb_eq. exact E.
  - split; discriminate.
Qed.

Lemma is_uhd_iff_version_witness :
  IndexBDMV_init uhd_fs "disc/BDMV/INDEX.BDMV" = Ok uhd_index /\
  (is_uhd uhd_index = true <-> version uhd_index = Some "INDX0300").
Proof.
  split; [reflexivity|].
  apply (is_uhd_iff_version uhd_fs "disc/BDMV/INDEX.BDMV"). reflexivity.
Defined.

(** C6: on a path that does not exist the constructor raises
    [FileNotFoundError]; nothing inside the constructor catches it, so a
    caller that goes on with the result receives the exception. *)
Theorem IndexBDMV_init_not_found (fs : filesystem) (f : string) :
  os_path_exists fs f = false ->
  IndexBDMV_init fs f = Raise (FileNotFoundError ("INDEX.BDMV file not found: " ++ f)) /\
  forall (B : Type) (k : IndexBDMV -> result B),
    (index <- IndexBDMV_init fs f ;; k index) =
    Raise (FileNotFoundError ("INDEX.BDMV file not found: " ++ f)).
Proof.
  intros H. unfold IndexBDMV_init. rewrite H. simpl. split; reflexivity.
Qed.

Lemma IndexBDMV_init_not_found_witness :
  os_path_exists uhd_fs "disc/INDEX.BDMV" = false /\
  IndexBDMV_init uhd_fs "disc/INDEX.BDMV" =
    Raise (FileNotFoundError "INDEX.BDMV file not found: disc/INDEX.BDMV").
Proof.
  split; [reflexivity|].
  apply (proj1 (IndexBDMV_init_not_found uhd_fs "disc/INDEX.BDMV" eq_refl)).
Defined.

(** C7: on an existing regular file of fewer than four bytes, the empty file
    included, the constructor returns an object without a version and with
    [is_uhd] false. *)
Theorem IndexBDMV_init_short_file (fs : filesystem) (f : string) (c : list byte) :
  os_resolve fs f = Some (File c) ->
  List.length c < 4 ->
  IndexBDMV_init fs f = Ok {| filename := f; is_uhd := false; version := None |}.
Proof.
  intros H L. rewrite (IndexBDMV_init_file fs f c H).
  apply Nat.leb_gt in L. rewrite L. reflexivity.
Qed.

Lemma IndexBDMV_init_short_file_witness :
  os_resolve short_fs "INDEX.BDMV" = Some (File (b "IND")) /\
  List.length (b "IND") < 4 /\
  IndexBDMV_init short_fs "INDEX.BDMV" =
    Ok {| filename := "INDEX.BDMV"; is_uhd := false; version := None |}.
Proof.
  split; [reflexivity|]. split; [simpl; lia|].
  apply (IndexBDMV_init_short_file short_fs "INDEX.BDMV" (b "IND")).
  - reflexivity.
  - simpl. lia.
Defined.

Example decode_strict_raises : decode_ascii strict [x49; xff; x4e] = Raise UnicodeDecodeError.
Proof. reflexivity. Qed.

Example decode_ignore_drops : decode_ascii ignore [x49; xff; x4e] = Ok "IN".
Proof. reflexivity. Qed.

Example rstrip_keeps_inner_nul :
  rstrip NUL (String "I" (String zero (String "N" (String zero EmptyString))))
  = String "I" (String zero (String "N" EmptyString)).
Proof. reflexivity. Qed.

(** C8: decoding with [errors='ignore'] never raises and keeps exactly the
    bytes below 128; on a file of four bytes or more the version is that
    decode of the first four bytes with the trailing null characters
    stripped, and four null bytes give the empty version, which is not
    ["INDX0300"], so [is_uhd] is false. *)
Theorem version_is_stripped_lossy_decode (fs : filesystem) (f : string) (c : list byte) :
  os_resolve fs f = Some (File c) ->
  4 <= List.length c ->
  (forall bs, decode_ascii ignore bs = Ok (lossy_ascii_decode bs)) /\
  (let v := strip_trailing_nul (lossy_ascii_decode (firstn 4 c)) in
   IndexBDMV_init fs f =
   Ok {| filename := f; is_uhd := String.eqb v "INDX0300"; version := Some v |}) /\
  (firstn 4 c = [x00; x00; x00; x00] ->
   IndexBDMV_init fs f = Ok {| filename := f; is_uhd := false; version := Some "" |}).
Proof.
  intros H L. apply Nat.leb_le in L.
  pose proof (IndexBDMV_init_file fs f c H) as I. rewrite L in I.
  split; [exact decode_ascii_ignore_ok|]. split.
  - cbv zeta. rewrite <- rstrip_NUL_spec. exact I.
  - intros Z. rewrite I. unfold tag_of. rewrite Z. reflexivity.
Qed.

Lemma version_is_stripped_lossy_decode_witness :
  os_resolve null_fs "INDEX.BDMV" = Some (File [x00; x00; x00; x00]) /\
  4 <= List.length [x00; x00; x00; x00] /\
  IndexBDMV_init null_fs "INDEX.BDMV" =
    Ok {| filename := "INDEX.BDMV"; is_uhd := false; version := Some "" |}.
Proof.
  split; [reflexivity|]. split; [simpl; lia|].
  apply (version_is_stripped_lossy_decode null_fs "INDEX.BDMV" [x00; x00; x00; x00]).
  - reflexivity.
  - simpl. lia.
  - reflexivity.
Defined.

(** ** Splitting and joining *)

Lemma split_sep_not_nil (s : string) : split_sep s <> [].
Proof.
  destruct s as [|c s]; simpl; [discriminate|].
  destruct (Ascii.eqb c SEP); [discriminate|].
  destruct (split_sep s); discriminate.
Qed.

Lemma split_sep_app (a c : string) :
  split_sep (a ++ String SEP c) = split_sep a ++ split_sep c.
Proof.
  induction a as [|x a IH]; simpl.
  - reflexivity.
  - destruct (Ascii.eqb x SEP).
    + rewrite IH. reflexivity.
    + rewrite IH. destruct (split_sep a) as [|w ws] eqn:E.
      * exfalso. exact (split_sep_not_nil a E).
      * reflexivity.
Qed.

Lemma split_sep_no_sep (x : string) : no_sep x = true -> split_sep x = [x].
Proof.
  induction x as [|c x IH]; simpl; [reflexivity|].
  intros H. apply andb_true_iff in H as [Hc Hx].
  apply negb_true_iff in Hc. rewrite Hc, (IH Hx). reflexivity.
Qed.

Lemma split_sep_all_no_sep (s : string) :
  Forall (fun x => no_sep x = true) (split_sep s).
Proof.
  induction s as [|c s IH]; simpl.
  - constructor; [reflexivity | constructor].
  - destruct (Ascii.eqb c SEP) eqn:E.
    + constructor; [reflexivity | exact IH].
    + destruct (split_sep s) as [|w ws].
      { constructor; [simpl; rewrite E; reflexivity | constructor]. }
      inversion IH as [|? ? Hw Hws]; subst.
      constructor; [simpl; rewrite E, Hw; reflexivity | exact Hws].
Qed.

Lemma split_sep_concat (l : list string) :
  l <> [] ->
  Forall (fun x => no_sep x = true) l ->
  split_sep (String.concat "/" l) = l.
Proof.
  induction l as [|x l IH]; [congruence|].
  intros _ H. inversion H as [|? ? Hx Hl]; subst.
  destruct l as [|y l].
  - simpl. apply split_sep_no_sep. exact Hx.
  - change (String.concat "/" (x :: y :: l))
      with (x ++ String SEP (String.concat "/" (y :: l)))%string.
    rewrite split_sep_app, (split_sep_no_sep x Hx), IH; [reflexivity | discriminate | exact Hl].
Qed.

(** ** Resolution of well-formed paths *)

Lemma valid_part_no_sep (x : string) : valid_part x = true -> no_sep x = true.
Proof. unfold valid_part. intros H. apply andb_true_iff in H. tauto. Qed.

Lemma valid_parts_no_sep (l : list string) :
  Forall (fun x => valid_part x = true) l -> Forall (fun x => no_sep x = true) l.
Proof. apply Forall_impl. exact valid_part_no_sep. Qed.

(** A joined, non-empty list of valid components starts with a character
    that is not the separator. *)
Lemma concat_valid_head (x : string) (l : list string) :
  valid_part x = true ->
  exists c rest, Ascii.eqb c SEP = false /\ String.concat "/" (x :: l) = String c rest.
Proof.
  intros H. unfold valid_part, keep_part in H.
  destruct x as [|c x]; [discriminate|].
  simpl in H. apply andb_true_iff in H as [_ H].
  apply andb_true_iff in H as [H _]. apply negb_true_iff in H.
  exists c. destruct l as [|y l]; simpl; eauto.
Qed.

Lemma walk_app (stack : list node) (l1 l2 : list string) :
  walk stack (l1 ++ l2) =
  match walk stack l1 with
  | Some stack' => walk stack' l2
  | None => None
  end.
Proof.
  revert stack. induction l1 as [|c l1 IH]; intros stack; simpl; [reflexivity|].
  destruct (walk_step stack c); [apply IH | reflexivity].
Qed.

Lemma os_resolve_rooted (fs : filesystem) (t : string) :
  os_resolve fs (String SEP t) =
  match fs_root fs with
  | Dir es =>
      match walk [Dir es] (split_sep t) with
      | Some (n :: _) => Some n
      | _ => None
      end
  | File _ => None
  end.
Proof.
  unfold os_resolve. simpl.
  destruct (fs_root fs); reflexivity.
Qed.

Lemma os_resolve_relative (fs : filesystem) (c : ascii) (t : string) :
  Ascii.eqb c SEP = false ->
  os_resolve fs (String c t) =
  match walk [fs_root fs] (fs_cwd fs) with
  | Some stack =>
      match walk stack (split_sep (String c t)) with
      | Some (n :: _) => Some n
      | _ => None
      end
  | None => None
  end.
Proof.
  intros H. unfold os_resolve.
  change (String.eqb (String c t) "") with false.
  cbn [count_leading_sep]. rewrite H. reflexivity.
Qed.

Lemma os_resolve_str (fs : filesystem) (p : PurePath) :
  wf_path p -> os_resolve fs (str p) = resolve_path fs p.
Proof.
  destruct p as [r ps]. intros [Hr Hps]. simpl in Hr, Hps.
  unfold str, resolve_path. cbn [root parts].
  destruct Hr as [->|[->| ->]].
  - (* relative *)
    change (start_of fs "") with (walk [fs_root fs] (fs_cwd fs)).
    destruct ps as [|x ps].
    + simpl String.concat. simpl String.append. simpl String.eqb. cbv iota.
      rewrite os_resolve_relative by reflexivity.
      destruct (walk [fs_root fs] (fs_cwd fs)) as [[|[c|es] up]|]; reflexivity.
    + inversion Hps as [|? ? Hx Hl]; subst.
      destruct (concat_valid_head x ps Hx) as (c & rest & Hc & E).
      change ("" ++ String.concat "/" (x :: ps))%string with (String.concat "/" (x :: ps)).
      rewrite E. change (String.eqb (String c rest) "") with false. cbv iota.
      rewrite os_resolve_relative by exact Hc.
      rewrite <- E, split_sep_concat by (try discriminate; apply valid_parts_no_sep; exact Hps).
      destruct (walk [fs_root fs] (fs_cwd fs)) as [[|[c'|es] up]|]; reflexivity.
  - (* root "/" *)
    change (start_of fs "/") with (Some [fs_root fs]).
    change ("/" ++ String.concat "/" ps)%string with (String SEP (String.concat "/" ps)).
    simpl String.eqb. cbv iota. rewrite os_resolve_rooted.
    destruct (fs_root fs) as [c|es]; [reflexivity|].
    destruct ps as [|x ps]; [reflexivity|].
    rewrite split_sep_concat by (try discriminate; apply valid_parts_no_sep; exact Hps).
    reflexivity.
  - (* root "//" *)
    change (start_of fs "//") with (Some [fs_root fs]).
    change ("//" ++ String.concat "/" ps)%string
      with (String SEP (String SEP (String.concat "/" ps))).
    simpl String.eqb. cbv iota. rewrite os_resolve_rooted.
    destruct (fs_root fs) as [c|es]; [reflexivity|].
    change (split_sep (String SEP (String.concat "/" ps)))
      with (EmptyString :: split_sep (String.concat "/" ps)).
    destruct ps as [|x ps]; [reflexivity|].
    rewrite split_sep_concat by (try discriminate; apply valid_parts_no_sep; exact Hps).
    reflexivity.
Qed.

Lemma Path_wf (s : string) : wf_path (Path s).
Proof.
  split.
  - simpl. unfold splitroot.
    destruct (count_leading_sep s) as [|[|[|n]]]; auto.
  - simpl. apply Forall_forall. intros x Hx.
    apply filter_In in Hx as [Hin Hk].
    unfold valid_part. rewrite Hk. simpl.
    pose proof (split_sep_all_no_sep s) as H.
    rewrite Forall_forall in H. exact (H x Hin).
Qed.

Lemma make_child_relpath_wf (p : PurePath) (name : string) :
  wf_path p -> valid_part name = true -> wf_path (make_child_relpath p name).
Proof.
  intros [Hr Hps] Hn. split; [exact Hr|].
  simpl. apply Forall_app. split; [exact Hps | constructor; [exact Hn | constructor]].
Qed.

(** Joining with a literal name appends it. *)
Lemma div_BDMV (p : PurePath) : p // "BDMV" = make_child_relpath p "BDMV".
Proof. reflexivity. Qed.

Lemma div_INDEX_BDMV (p : PurePath) : p // "INDEX.BDMV" = make_child_relpath p "INDEX.BDMV".
Proof. reflexivity. Qed.

(** The string form of a child: the parent, a separator, the name. *)
Lemma string_app_assoc (x y z : string) : ((x ++ y) ++ z = x ++ (y ++ z))%string.
Proof. induction x as [|c x IH]; simpl; [reflexivity | rewrite IH; reflexivity]. Qed.

Lemma concat_snoc (l : list string) (name : string) :
  l <> [] ->
  String.concat "/" (l ++ [name]) = (String.concat "/" l ++ "/" ++ name)%string.
Proof.
  induction l as [|x l IH]; [congruence|]. intros _.
  destruct l as [|y l]; [reflexivity|].
  change (String.concat "/" ((x :: y :: l) ++ [name]))
    with (x ++ "/" ++ String.concat "/" ((y :: l) ++ [name]))%string.
  rewrite IH by discriminate.
  change (String.concat "/" (x :: y :: l)) with (x ++ "/" ++ String.concat "/" (y :: l))%string.
  rewrite !string_app_assoc. reflexivity.
Qed.

Lemma str_make_child_relpath (p : PurePath) (name : string) :
  wf_path p -> parts p <> [] ->
  str (make_child_relpath p name) = (str p ++ "/" ++ name)%string.
Proof.
  destruct p as [r ps]. intros [_ W] N. simpl in W, N.
  destruct ps as [|x ps]; [congruence|].
  inversion W as [|? ? Hx _]; subst.
  destruct (concat_valid_head x ps Hx) as (c & rest & _ & E).
  unfold str, make_child_relpath. cbn [root parts].
  rewrite concat_snoc by discriminate. rewrite E.
  assert (A : forall t, String.eqb (r ++ String c t) "" = false)
    by (intros t; destruct r; reflexivity).
  change (String c rest ++ "/" ++ name)%string with (String c (rest ++ "/" ++ name))%string.
  rewrite !A, string_app_assoc. reflexivity.
Qed.

(** Nothing exists below a path that does not exist. *)
Lemma resolve_path_child_None (fs : filesystem) (p : PurePath) (name : string) :
  resolve_path fs p = None -> resolve_path fs (make_child_relpath p name) = None.
Proof.
  unfold resolve_path. cbn [root parts make_child_relpath].
  destruct (start_of fs (root p)) as [[|[c|es] up]|]; try reflexivity.
  rewrite walk_app.
  destruct (walk (Dir es :: up) (parts p)) as [[|n st]|]; try reflexivity.
  discriminate.
Qed.


(** What [Path.exists] says about the tree. *)
Lemma exists_Ok_true (pf : platform) (fs : filesystem) (q : PurePath) :
  exists_ pf fs q = Ok true -> os_path_exists fs (str q) = true.
Proof.
  unfold exists_. destruct (stat_fault pf (str q)) as [errno|].
  - destruct (ignore_error errno); discriminate.
  - intros H. injection H as H. exact H.
Qed.

Lemma exists_of_resolved (pf : platform) (fs : filesystem) (q : PurePath) (n : node) :
  stat_fault pf (str q) = None ->
  os_resolve fs (str q) = Some n -> exists_ pf fs q = Ok true.
Proof.
  intros S H. unfold exists_, os_path_exists. rewrite S, H. reflexivity.
Qed.

Lemma exists_of_absent (pf : platform) (fs : filesystem) (q : PurePath) :
  os_resolve fs (str q) = None ->
  stat_quiet pf (str q) ->
  exists_ pf fs q = Ok false.
Proof.
  intros H Q. unfold exists_, os_path_exists. rewrite H.
  destruct (stat_fault pf (str q)) as [errno|] eqn:S; [|reflexivity].
  rewrite (Q errno S). reflexivity.
Qed.

Lemma is_dir_of_non_directory (pf : platform) (fs : filesystem) (p : PurePath) :
  os_path_isdir fs (str p) = false ->
  stat_quiet pf (str p) ->
  is_dir pf fs p = Ok false.
Proof.
  intros H Q. unfold is_dir. rewrite H.
  destruct (stat_fault pf (str p)) as [errno|] eqn:S; [|reflexivity].
  rewrite (Q errno S). reflexivity.
Qed.

Lemma is_dir_Ok_true (pf : platform) (fs : filesystem) (p : PurePath) :
  is_dir pf fs p = Ok true -> exists es, os_resolve fs (str p) = Some (Dir es).
Proof.
  unfold is_dir, os_path_isdir. destruct (stat_fault pf (str p)) as [errno|].
  - destruct (ignore_error errno); discriminate.
  - destruct (os_resolve fs (str p)) as [[c|es]|]; try discriminate. eauto.
Qed.

Lemma os_resolve_child_None (fs : filesystem) (p : PurePath) (name : string) :
  wf_path p -> valid_part name = true ->
  os_resolve fs (str p) = None ->
  os_resolve fs (str (make_child_relpath p name)) = None.
Proof.
  intros Hp Hn.
  rewrite (os_resolve_str fs p Hp),
          (os_resolve_str fs _ (make_child_relpath_wf p name Hp Hn)).
  apply resolve_path_child_None.
Qed.

(** ** Traces of generators *)

Lemma gen_app_assoc {A : Type} (g1 g2 g3 : gen A) :
  gen_app (gen_app g1 g2) g3 = gen_app g1 (gen_app g2 g3).
Proof. induction g1 as [|a g IH|e]; simpl; [reflexivity | rewrite IH; reflexivity | reflexivity]. Qed.

Lemma gen_app_Done {A : Type} (g1 g2 : gen A) :
  gen_app g1 g2 = Done -> g1 = Done /\ g2 = Done.
Proof. destruct g1; simpl; [auto | discriminate | discriminate]. Qed.

Lemma gen_concat_Done {A : Type} (l : list (gen A)) (g : gen A) :
  gen_concat l = Done -> In g l -> g = Done.
Proof.
  induction l as [|h l IH]; simpl; [tauto|].
  intros H. apply gen_app_Done in H as [H1 H2].
  intros [<-|Hin]; [exact H1 | exact (IH H2 Hin)].
Qed.

Lemma yields_gen_app {A : Type} (g1 g2 : gen A) (a : A) :
  In a (yields (gen_app g1 g2)) -> In a (yields g1) \/ In a (yields g2).
Proof.
  induction g1 as [|x g IH|e]; simpl; [auto | | tauto].
  intros [H|H]; [auto|]. destruct (IH H); auto.
Qed.

Lemma yields_gen_concat {A : Type} (l : list (gen A)) (a : A) :
  In a (yields (gen_concat l)) -> exists g, In g l /\ In a (yields g).
Proof.
  induction l as [|h l IH]; simpl; [tauto|].
  intros H. apply yields_gen_app in H as [H|H].
  - exists h. auto.
  - destruct (IH H) as (g & Hg & Ha). exists g. auto.
Qed.

(** ** The recursive search *)

Lemma iterate_directories_Dir (pf : platform) (depth : nat) (p : PurePath)
      (es : list (string * node)) :
  iterate_directories pf depth p (Dir es) =
  Yield p
    match scandir_fault pf (str p) with
    | Some errno =>
        if is_PermissionError (OSError errno) then Done else Throw (OSError errno)
    | None => gen_concat (map (visit_entry pf depth p) es)
    end.
Proof.
  simpl. f_equal. destruct (scandir_fault pf (str p)); [reflexivity|].
  induction es as [|[name c] es IH]; [reflexivity|].
  cbn [map gen_concat]. rewrite <- IH. unfold visit_entry. cbn [fst snd].
  destruct c; reflexivity.
Qed.

(** Induction on the file-system tree, the entries of a directory
    included. *)
Lemma node_nested_ind (P : node -> Prop) :
  (forall c, P (File c)) ->
  (forall es, Forall (fun e => P (snd e)) es -> P (Dir es)) ->
  forall n, P n.
Proof.
  intros HF HD. fix IH 1. intros [c|es].
  - apply HF.
  - apply HD. induction es as [|[name c] es IHes]; constructor; [apply IH | exact IHes].
Qed.

(** Every directory the walk yields lies under its starting point. *)
Lemma iterate_directories_under (pf : platform) :
  forall (n : node) (depth : nat) (p d : PurePath),
    In d (yields (iterate_directories pf depth p n)) ->
    exists ds, d = {| root := root p; parts := parts p ++ ds |}.
Proof.
  induction n as [c|es IH] using node_nested_ind; intros depth p d.
  - cbn [iterate_directories yields]. intros [<-|H].
    + exists []. rewrite app_nil_r. destruct p; reflexivity.
    + destruct (scandir_fault pf (str p)) as [errno|];
        [destruct (is_PermissionError (OSError errno))|]; exact (False_ind _ H).
  - rewrite iterate_directories_Dir. cbn [yields]. intros [<-|H].
    + exists []. rewrite app_nil_r. destruct p; reflexivity.
    + destruct (scandir_fault pf (str p)) as [errno|].
      { destruct (is_PermissionError (OSError errno)); exact (False_ind _ H). }
      apply yields_gen_concat in H as (g & Hg & H).
      apply in_map_iff in Hg as ([name c] & <- & Hin).
      rewrite Forall_forall in IH. specialize (IH _ Hin). cbn [snd] in IH.
      unfold visit_entry in H. cbn [fst snd] in H.
      destruct c as [c|e1]; [destruct H|].
      destruct (Nat.ltb (recursion_limit pf) (S depth)); [destruct H|].
      apply IH in H as [ds ->]. exists (name :: ds).
      cbn [root parts make_child_relpath]. rewrite <- app_assoc. reflexivity.
Qed.

Lemma yields_precise_select (pf : platform) (fs : filesystem) (name : string)
      (d q : PurePath) :
  In q (yields (precise_select pf fs name d)) ->
  q = make_child_relpath d name /\ exists_ pf fs q = Ok true.
Proof.
  unfold precise_select.
  destruct (exists_ pf fs (make_child_relpath d name)) as [[|]|e] eqn:E; simpl.
  - intros [<-|[]]. auto.
  - intros [].
  - destruct (is_PermissionError e); intros [].
Qed.

Lemma yields_recursive_select (pf : platform) (fs : filesystem) (name : string)
      (dirs : gen PurePath) (q : PurePath) :
  In q (yields (recursive_select pf fs name dirs)) ->
  exists d, In d (yields dirs) /\ In q (yields (precise_select pf fs name d)).
Proof.
  induction dirs as [|d dirs IH|e]; simpl; [tauto | | tauto].
  intros H. apply yields_gen_app in H as [H|H].
  - exists d. auto.
  - destruct (IH H) as (d' & Hd & Hq). exists d'. auto.
Qed.

(** What [p.rglob(name)] yields exists, lies under [p] and is called
    [name]. *)
Lemma rglob_sound (pf : platform) (fs : filesystem) (p q : PurePath) (name : string) :
  In q (yields (rglob pf fs p name)) ->
  exists_ pf fs q = Ok true /\
  exists ds, q = {| root := root p; parts := parts p ++ ds ++ [name] |}.
Proof.
  unfold rglob. destruct (is_dir pf fs p) as [[|]|e]; try (intros []).
  destruct (os_resolve fs (str p)) as [n|]; try (intros []).
  intros H. apply yields_recursive_select in H as (d & Hd & Hq).
  apply yields_precise_select in Hq as [-> E]. split; [exact E|].
  apply iterate_directories_under in Hd as [ds ->]. exists ds.
  unfold make_child_relpath. cbn [root parts]. rewrite <- app_assoc. reflexivity.
Qed.

Lemma rglob_head_sound (pf : platform) (fs : filesystem) (p q : PurePath)
      (name : string) (g : gen PurePath) :
  rglob pf fs p name = Yield q g ->
  exists_ pf fs q = Ok true /\
  exists ds, q = {| root := root p; parts := parts p ++ ds ++ [name] |}.
Proof.
  intros H. apply (rglob_sound pf fs p q name). rewrite H. left. reflexivity.
Qed.

Lemma rglob_not_a_directory (pf : platform) (fs : filesystem) (p : PurePath)
      (name : string) :
  is_dir pf fs p = Ok false -> rglob pf fs p name = Done.
Proof. intros H. unfold rglob. rewrite H. reflexivity. Qed.

(** ** The recursive search reaches every depth *)

Lemma lookup_entry_In (d : string) (es : list (string * node)) (c : node) :
  lookup_entry d es = Some c -> In (d, c) es.
Proof.
  induction es as [|[n c'] es IH]; simpl; [discriminate|].
  destruct (String.eqb n d) eqn:E.
  - intros H. injection H as <-. apply String.eqb_eq in E. subst. left. reflexivity.
  - intros H. right. exact (IH H).
Qed.

Lemma descend_File (c : list byte) (ds : list string) (es : list (string * node)) :
  descend (File c) ds <> Some (Dir es).
Proof. destruct ds; discriminate. Qed.

Lemma descend_app (n : node) (l1 l2 : list string) :
  descend n (l1 ++ l2) =
  match descend n l1 with
  | Some n' => descend n' l2
  | None => None
  end.
Proof.
  revert n. induction l1 as [|d l1 IH]; intros n; simpl; [reflexivity|].
  destruct n as [c|es]; [reflexivity|].
  destruct (lookup_entry d es); [apply IH | reflexivity].
Qed.

Lemma entry_name_not_special (x : string) :
  entry_name x = true ->
  String.eqb x "" || String.eqb x "." = false /\ String.eqb x ".." = false.
Proof.
  unfold entry_name, valid_part, keep_part. intros H.
  apply andb_true_iff in H as [H H3]. apply andb_true_iff in H as [H _].
  apply andb_true_iff in H as [H1 H2].
  apply negb_true_iff in H1, H2, H3. rewrite H1, H2, H3. split; reflexivity.
Qed.

Lemma entry_name_valid (x : string) : entry_name x = true -> valid_part x = true.
Proof. unfold entry_name. intros H. apply andb_true_iff in H. tauto. Qed.

(** Resolution follows listed names downwards. *)
Lemma walk_descend (ds : list string) :
  forall (n n' : node) (up : list node),
    Forall (fun x => entry_name x = true) ds ->
    descend n ds = Some n' ->
    exists up', walk (n :: up) ds = Some (n' :: up').
Proof.
  induction ds as [|d ds IH]; intros n n' up F H.
  - injection H as <-. exists up. reflexivity.
  - inversion F as [|? ? Hd Hds]; subst.
    destruct n as [c|es]; [discriminate|]. simpl in H.
    destruct (lookup_entry d es) as [c|] eqn:L; [|discriminate].
    destruct (entry_name_not_special d Hd) as [S1 S2].
    simpl. rewrite S1, S2, L.
    exact (IH c n' (Dir es :: up) Hds H).
Qed.

(** Following listed names down from a path that resolves gives a path that
    resolves. *)
Lemma os_resolve_descend (fs : filesystem) (p : PurePath) (n c : node)
      (ds : list string) :
  wf_path p ->
  os_resolve fs (str p) = Some n ->
  Forall (fun x => entry_name x = true) ds ->
  descend n ds = Some c ->
  os_resolve fs (str {| root := root p; parts := parts p ++ ds |}) = Some c.
Proof.
  intros W R F D.
  assert (W' : wf_path {| root := root p; parts := parts p ++ ds |}).
  { destruct W as [Wr Wp]. split; [exact Wr|]. cbn [parts].
    apply Forall_app. split; [exact Wp|].
    revert F. apply Forall_impl. exact entry_name_valid. }
  rewrite (os_resolve_str fs p W) in R. rewrite (os_resolve_str fs _ W').
  unfold resolve_path in *. cbn [root parts].
  destruct (start_of fs (root p)) as [[|[c0|e0] up0]|]; try discriminate.
  rewrite walk_app.
  destruct (walk (Dir e0 :: up0) (parts p)) as [[|n1 up1]|]; try discriminate.
  injection R as ->.
  destruct (walk_descend ds n c up1 F D) as [up' E].
  rewrite E. reflexivity.
Qed.

Lemma recursive_select_gen_app (pf : platform) (fs : filesystem) (name : string)
      (a b : gen PurePath) :
  recursive_select pf fs name (gen_app a b) =
  gen_app (recursive_select pf fs name a) (recursive_select pf fs name b).
Proof.
  induction a as [|d a IH|e]; simpl; [reflexivity | | reflexivity].
  rewrite IH, gen_app_assoc. reflexivity.
Qed.

Lemma recursive_select_gen_concat (pf : platform) (fs : filesystem) (name : string)
      (l : list (gen PurePath)) :
  recursive_select pf fs name (gen_concat l) =
  gen_concat (map (recursive_select pf fs name) l).
Proof.
  induction l as [|g l IH]; simpl; [reflexivity|].
  rewrite recursive_select_gen_app, IH. reflexivity.
Qed.

(** When no listing is denied, the search under a directory does not end
    silently if a chain of listed directories leads to an existing entry of
    the name searched for: it yields a path or raises. *)
Lemma recursive_select_not_Done (pf : platform) (fs : filesystem) (name : string)
      (ds : list string) :
  listings_allowed pf ->
  forall (depth : nat) (p : PurePath) (es es' : list (string * node)),
    descend (Dir es) ds = Some (Dir es') ->
    exists_ pf fs {| root := root p; parts := parts p ++ ds ++ [name] |} = Ok true ->
    recursive_select pf fs name (iterate_directories pf depth p (Dir es)) <> Done.
Proof.
  intros A. induction ds as [|d ds IH]; intros depth p es es' D X.
  - rewrite iterate_directories_Dir. cbn [recursive_select].
    unfold precise_select, make_child_relpath. cbn [app] in X. rewrite X.
    discriminate.
  - simpl in D. destruct (lookup_entry d es) as [c|] eqn:L; [|discriminate].
    destruct c as [c|e1]; [exact (False_ind _ (descend_File c ds es' D))|].
    rewrite iterate_directories_Dir. cbn [recursive_select].
    intros H. apply gen_app_Done in H as [_ H].
    destruct (scandir_fault pf (str p)) as [errno|] eqn:Sc.
    + rewrite (A _ _ Sc) in H. discriminate.
    + rewrite recursive_select_gen_concat in H.
      assert (G : recursive_select pf fs name (visit_entry pf depth p (d, Dir e1)) = Done).
      { apply (gen_concat_Done _ _ H). apply in_map. apply in_map.
        exact (lookup_entry_In d es _ L). }
      unfold visit_entry in G. cbn [fst snd] in G.
      destruct (Nat.ltb (recursion_limit pf) (S depth)); [discriminate|].
      apply (IH (S depth) (make_child_relpath p d) e1 es' D); [|exact G].
      cbn [root parts make_child_relpath]. rewrite <- app_assoc. exact X.
Qed.

Lemma rglob_not_Done (pf : platform) (fs : filesystem) (p : PurePath)
      (es es' : list (string * node)) (ds : list string) (name : string) (c : node) :
  listings_allowed pf ->
  wf_path p ->
  stat_fault pf (str p) = None ->
  os_resolve fs (str p) = Some (Dir es) ->
  Forall (fun x => entry_name x = true) ds ->
  entry_name name = true ->
  descend (Dir es) ds = Some (Dir es') ->
  lookup_entry name es' = Some c ->
  stat_fault pf (str {| root := root p; parts := parts p ++ ds ++ [name] |}) = None ->
  rglob pf fs p name <> Done.
Proof.
  intros A W S R F N D L T.
  assert (X : exists_ pf fs {| root := root p; parts := parts p ++ ds ++ [name] |}
              = Ok true).
  { apply (exists_of_resolved pf fs _ c T).
    apply (os_resolve_descend fs p (Dir es) c (ds ++ [name]) W R).
    - apply Forall_app. split; [exact F | constructor; [exact N | constructor]].
    - rewrite descend_app, D. simpl. rewrite L. reflexivity. }
  unfold rglob, is_dir, os_path_isdir. rewrite S, R.
  exact (recursive_select_not_Done pf fs name ds A 0 p es es' D X).
Qed.

(** ** Finding the index file *)

Lemma os_path_exists_false (fs : filesystem) (s : string) :
  os_path_exists fs s = false -> os_resolve fs s = None.
Proof. unfold os_path_exists. destruct (os_resolve fs s); [discriminate | reflexivity]. Qed.

Lemma os_path_isdir_of_absent (fs : filesystem) (s : string) :
  os_resolve fs s = None -> os_path_isdir fs s = false.
Proof. intros H. unfold os_path_isdir. rewrite H. reflexivity. Qed.

(** C9: when the directory does not exist, and [os.stat] does not fail on
    it or on the two fixed candidates with an errno that [pathlib] raises
    (any errno but ENOENT, ENOTDIR, EBADF and ELOOP), [find_index_file]
    returns [None]. *)
Theorem find_index_file_missing_directory
        (pf : platform) (fs : filesystem) (directory : string) :
  os_path_exists fs (str (Path directory)) = false ->
  stat_quiet pf (str (Path directory)) ->
  stat_quiet pf (str (Path directory // "BDMV" // "INDEX.BDMV")) ->
  stat_quiet pf (str (Path directory // "INDEX.BDMV")) ->
  find_index_file pf fs directory = Ok None.
Proof.
  intros H Q Q1 Q2. apply os_path_exists_false in H as R.
  unfold find_index_file.
  rewrite !(rglob_not_a_directory pf fs _ _
              (is_dir_of_non_directory pf fs _ (os_path_isdir_of_absent fs _ R) Q)).
  pose proof (Path_wf directory) as W.
  rewrite div_BDMV, !div_INDEX_BDMV in *.
  pose proof (os_resolve_child_None fs _ "BDMV" W eq_refl R) as R1.
  pose proof (os_resolve_child_None fs _ "INDEX.BDMV"
                (make_child_relpath_wf _ "BDMV" W eq_refl) eq_refl R1) as R2.
  pose proof (os_resolve_child_None fs _ "INDEX.BDMV" W eq_refl R) as R3.
  rewrite (exists_of_absent pf fs _ R2 Q1). cbn [bind].
  rewrite (exists_of_absent pf fs _ R3 Q2). reflexivity.
Qed.

(** [os.stat] on a path without a fault. *)
Lemma stat_quiet_of_None (pf : platform) (s : string) :
  stat_fault pf s = None -> stat_quiet pf s.
Proof. intros H errno E. rewrite H in E. discriminate E. Qed.

Lemma find_index_file_missing_directory_witness :
  os_path_exists uhd_fs (str (Path "movie")) = false /\
  find_index_file (posix 1000 uhd_fs) uhd_fs "movie" = Ok None.
Proof.
  split; [reflexivity|].
  apply (find_index_file_missing_directory (posix 1000 uhd_fs) uhd_fs "movie");
    [reflexivity | apply stat_quiet_of_None; reflexivity ..].
Defined.

(** A directory that does not exist and whose name is longer than a file
    name can be: [os.stat] fails with ENAMETOOLONG, which [Path.exists]
    raises again, and nothing in [find_index_file] catches it. *)
Lemma find_index_file_long_name_raises :
  os_path_exists uhd_fs long_name = false /\
  find_index_file (posix 1000 uhd_fs) uhd_fs long_name = Raise (OSError ENAMETOOLONG).
Proof. split; vm_compute; reflexivity. Qed.

(** Every branch of [find_index_file] returns the string form of a path
    that passed [Path.exists]. *)
Lemma find_index_file_cases (pf : platform) (fs : filesystem) (directory path : string) :
  find_index_file pf fs directory = Ok (Some path) ->
  exists q, path = str q /\ exists_ pf fs q = Ok true.
Proof.
  unfold find_index_file.
  destruct (exists_ pf fs (Path directory // "BDMV" // "INDEX.BDMV")) as [[|]|e] eqn:E1;
    cbn [bind]; [| |discriminate].
  { intros H. injection H as <-. eauto. }
  destruct (exists_ pf fs (Path directory // "INDEX.BDMV")) as [[|]|e] eqn:E2;
    cbn [bind]; [| |discriminate].
  { intros H. injection H as <-. eauto. }
  destruct (rglob pf fs (Path directory) "INDEX.BDMV") as [|q g|e] eqn:E3;
    [| |discriminate].
  - destruct (rglob pf fs (Path directory) "index.bdmv") as [|q g|e] eqn:E4;
      [discriminate| |discriminate].
    intros H. injection H as <-. exists q. split; [reflexivity|].
    exact (proj1 (rglob_head_sound pf fs _ q _ g E4)).
  - intros H. injection H as <-. exists q. split; [reflexivity|].
    exact (proj1 (rglob_head_sound pf fs _ q _ g E3)).
Qed.

(** C10: a path returned by [find_index_file] exists: it passed
    [Path.exists], directly or inside the recursive enumeration, and
    [Path.exists] is [os.path.exists] on the string returned. *)
Theorem find_index_file_exists
        (pf : platform) (fs : filesystem) (directory path : string) :
  find_index_file pf fs directory = Ok (Some path) ->
  os_path_exists fs path = true.
Proof.
  intros H.
  destruct (find_index_file_cases pf fs directory path H) as (q & -> & E).
  exact (exists_Ok_true pf fs q E).
Qed.

Lemma find_index_file_exists_witness :
  find_index_file (posix 1000 uhd_fs) uhd_fs "disc" = Ok (Some "disc/BDMV/INDEX.BDMV") /\
  os_path_exists uhd_fs "disc/BDMV/INDEX.BDMV" = true.
Proof.
  split; [reflexivity|].
  apply (find_index_file_exists (posix 1000 uhd_fs) uhd_fs "disc" "disc/BDMV/INDEX.BDMV").
  reflexivity.
Defined.

(** The four stages on sample discs. *)
Example find_standard :
  find_index_file (posix 1000 backup_fs) backup_fs "disc"
  = Ok (Some "disc/BDMV/INDEX.BDMV").
Proof. reflexivity. Qed.

Example find_alternative :
  find_index_file (posix 1000 backup_fs) backup_fs "disc/BACKUP"
  = Ok (Some "disc/BACKUP/INDEX.BDMV").
Proof. reflexivity. Qed.

Example find_recursive :
  find_index_file (posix 1000 deep_fs) deep_fs "disc" = Ok (Some "disc/a/b/INDEX.BDMV").
Proof. reflexivity. Qed.

Example find_lower_case :
  find_index_file (posix 1000 lower_fs) lower_fs "disc" = Ok (Some "disc/bdmv/index.bdmv").
Proof. reflexivity. Qed.

Example find_from_cwd :
  find_index_file (posix 1000 deep_fs) deep_fs "" = Ok (Some "disc/a/b/INDEX.BDMV").
Proof. reflexivity. Qed.

Example find_nothing : find_index_file (posix 1000 short_fs) short_fs "disc" = Ok None.
Proof. reflexivity. Qed.

(** The interpreter gives up one level above the index. *)
Example find_too_deep :
  find_index_file (posix 1 deep_fs) deep_fs "disc" = Raise RecursionError.
Proof. reflexivity. Qed.

(** The first candidate as a string: [<dir>/BDMV/INDEX.BDMV]. *)
Lemma str_standard_candidate (directory : string) :
  parts (Path directory) <> [] ->
  str (Path directory // "BDMV" // "INDEX.BDMV") =
  (str (Path directory) ++ "/BDMV/INDEX.BDMV")%string.
Proof.
  intros N. rewrite div_BDMV, div_INDEX_BDMV.
  pose proof (Path_wf directory) as W.
  rewrite str_make_child_relpath;
    [| exact (make_child_relpath_wf _ "BDMV" W eq_refl)
     | cbn [parts make_child_relpath]; intros E; apply app_eq_nil in E as [_ E]; discriminate].
  rewrite (str_make_child_relpath _ "BDMV" W N).
  rewrite string_app_assoc. reflexivity.
Qed.

(** C4: [find_index_file] tries, in this order, [<dir>/BDMV/INDEX.BDMV],
    [<dir>/INDEX.BDMV], the first result of the recursive search for
    [INDEX.BDMV] and the first result of the recursive search for
    [index.bdmv], and returns the first that is there; so an existing
    [<dir>/BDMV/INDEX.BDMV] is returned whatever else the tree holds.  The
    results of a recursive search exist, lie under [<dir>] and carry exactly
    the name searched for. *)
Theorem find_index_file_priority (pf : platform) (fs : filesystem) (directory : string) :
  let d := Path directory in
  let standard := d // "BDMV" // "INDEX.BDMV" in
  let alternative := d // "INDEX.BDMV" in
  (exists_ pf fs standard = Ok true ->
   find_index_file pf fs directory = Ok (Some (str standard))) /\
  (exists_ pf fs standard = Ok false -> exists_ pf fs alternative = Ok true ->
   find_index_file pf fs directory = Ok (Some (str alternative))) /\
  (exists_ pf fs standard = Ok false -> exists_ pf fs alternative = Ok false ->
   forall q g, rglob pf fs d "INDEX.BDMV" = Yield q g ->
   find_index_file pf fs directory = Ok (Some (str q))) /\
  (exists_ pf fs standard = Ok false -> exists_ pf fs alternative = Ok false ->
   rglob pf fs d "INDEX.BDMV" = Done ->
   forall q g, rglob pf fs d "index.bdmv" = Yield q g ->
   find_index_file pf fs directory = Ok (Some (str q))) /\
  (exists_ pf fs standard = Ok false -> exists_ pf fs alternative = Ok false ->
   rglob pf fs d "INDEX.BDMV" = Done -> rglob pf fs d "index.bdmv" = Done ->
   find_index_file pf fs directory = Ok None) /\
  (forall name q, In q (yields (rglob pf fs d name)) ->
   exists_ pf fs q = Ok true /\
   exists ds, q = {| root := root d; parts := parts d ++ ds ++ [name] |}).
Proof.
  intros d standard alternative. unfold find_index_file.
  fold d. fold standard. fold alternative.
  repeat split.
  - intros H1. rewrite H1. reflexivity.
  - intros H1 H2. rewrite H1. cbn [bind]. rewrite H2. reflexivity.
  - intros H1 H2 q g H3. rewrite H1. cbn [bind]. rewrite H2. cbn [bind].
    rewrite H3. reflexivity.
  - intros H1 H2 H3 q g H4. rewrite H1. cbn [bind]. rewrite H2. cbn [bind].
    rewrite H3, H4. reflexivity.
  - intros H1 H2 H3 H4. rewrite H1. cbn [bind]. rewrite H2. cbn [bind].
    rewrite H3, H4. reflexivity.
  - exact (proj1 (rglob_sound pf fs d q name H)).
  - exact (proj2 (rglob_sound pf fs d q name H)).
Qed.

Lemma find_index_file_priority_witness :
  exists_ (posix 1000 backup_fs) backup_fs (Path "disc" // "BDMV" // "INDEX.BDMV")
    = Ok true /\
  find_index_file (posix 1000 backup_fs) backup_fs "disc"
    = Ok (Some "disc/BDMV/INDEX.BDMV").
Proof.
  split; [reflexivity|].
  apply (proj1 (find_index_file_priority (posix 1000 backup_fs) backup_fs "disc")).
  reflexivity.
Defined.

(** ** The predicate *)

Lemma os_path_exists_empty (fs : filesystem) : os_path_exists fs "" = false.
Proof. reflexivity. Qed.

(** What [find_index_file] raises, [is_uhd_disc] raises: the call is not
    inside the [try]. *)
Lemma is_uhd_disc_propagates (pf : platform) (fs : filesystem) (directory : string)
      (e : exn) :
  find_index_file pf fs directory = Raise e -> is_uhd_disc pf fs directory = Raise e.
Proof. intros H. unfold is_uhd_disc. rewrite H. reflexivity. Qed.

(** C3: whenever [find_index_file] returns, [is_uhd_disc] returns a boolean
    and does not raise: [False] when no index file was found, [False] when
    the constructor raises on the file found, and the [is_uhd] attribute of
    the parsed object otherwise. *)
Theorem is_uhd_disc_returns (pf : platform) (fs : filesystem) (directory : string)
        (found : option string) :
  find_index_file pf fs directory = Ok found ->
  is_uhd_disc pf fs directory =
  Ok match found with
     | None => false
     | Some index_file =>
         match IndexBDMV_init fs index_file with
         | Ok index => is_uhd index
         | Raise _ => false
         end
     end.
Proof.
  intros E. unfold is_uhd_disc. rewrite E. cbn [bind].
  destruct found as [path|]; [|reflexivity].
  destruct (find_index_file_cases pf fs directory path E) as (q & -> & X).
  assert (T : truthy (Some (str q)) = true).
  { simpl. destruct (String.eqb (str q) "") eqn:N; [|reflexivity].
    apply String.eqb_eq in N. apply exists_Ok_true in X. rewrite N in X.
    rewrite os_path_exists_empty in X. discriminate. }
  rewrite T. simpl.
  destruct (IndexBDMV_init fs (str q)); reflexivity.
Qed.

Lemma is_uhd_disc_returns_witness :
  find_index_file (posix 1000 dir_fs) dir_fs "disc" = Ok (Some "disc/BDMV/INDEX.BDMV") /\
  is_uhd_disc (posix 1000 dir_fs) dir_fs "disc" =
  Ok match IndexBDMV_init dir_fs "disc/BDMV/INDEX.BDMV" with
     | Ok index => is_uhd index
     | Raise _ => false
     end.
Proof.
  split; [reflexivity|].
  apply (is_uhd_disc_returns (posix 1000 dir_fs) dir_fs "disc"
           (Some "disc/BDMV/INDEX.BDMV")).
  reflexivity.
Defined.

(** On the directory with the name of 300 characters [is_uhd_disc] raises
    the [OSError] of [Path.exists]. *)
Lemma is_uhd_disc_long_name_raises :
  is_uhd_disc (posix 1000 uhd_fs) uhd_fs long_name = Raise (OSError ENAMETOOLONG).
Proof. vm_compute. reflexivity. Qed.

(** The index entry is a directory: [open] raises, the predicate answers
    [False]. *)
Example is_uhd_disc_index_is_directory :
  find_index_file (posix 1000 dir_fs) dir_fs "disc" = Ok (Some "disc/BDMV/INDEX.BDMV") /\
  IndexBDMV_init dir_fs "disc/BDMV/INDEX.BDMV" = Raise IsADirectoryError /\
  is_uhd_disc (posix 1000 dir_fs) dir_fs "disc" = Ok false.
Proof. repeat split. Qed.

(** C1: on the disc whose [BDMV/INDEX.BDMV] holds [b"INDX0300\x00\x00"] the
    constructor keeps the four-character tag ["INDX"], which is not
    ["INDX0300"], and [is_uhd_disc] returns [False]. *)
Theorem is_uhd_disc_INDX0300_scenario (limit : nat) :
  find_index_file (posix limit uhd_fs) uhd_fs "disc" = Ok (Some "disc/BDMV/INDEX.BDMV") /\
  IndexBDMV_init uhd_fs "disc/BDMV/INDEX.BDMV" =
    Ok {| filename := "disc/BDMV/INDEX.BDMV"; is_uhd := false; version := Some "INDX" |} /\
  is_uhd_disc (posix limit uhd_fs) uhd_fs "disc" = Ok false.
Proof. repeat split. Qed.

(** * Further properties of the module *)

(** ** The constructor, beyond the header tag *)

Lemma firstn_4_length (c : list byte) :
  List.length (firstn 4 c) = 4 -> Nat.leb 4 (List.length c) = true.
Proof.
  intros H. apply Nat.leb_le. rewrite length_firstn in H. lia.
Qed.

(** X2: on files of four bytes or more only the first four bytes count: two
    files that agree on them get the same version and the same [is_uhd],
    whatever follows and wherever they are. *)
Theorem IndexBDMV_init_first_four_bytes
        (fs1 fs2 : filesystem) (f1 f2 : string) (c1 c2 : list byte) :
  os_resolve fs1 f1 = Some (File c1) ->
  os_resolve fs2 f2 = Some (File c2) ->
  4 <= List.length c1 ->
  firstn 4 c1 = firstn 4 c2 ->
  exists r1 r2,
    IndexBDMV_init fs1 f1 = Ok r1 /\ IndexBDMV_init fs2 f2 = Ok r2 /\
    version r1 = version r2 /\ is_uhd r1 = is_uhd r2.
Proof.
  intros H1 H2 L E.
  assert (L2 : Nat.leb 4 (List.length c2) = true).
  { apply firstn_4_length. rewrite <- E, length_firstn. lia. }
  apply Nat.leb_le in L.
  rewrite (IndexBDMV_init_file fs1 f1 c1 H1), (IndexBDMV_init_file fs2 f2 c2 H2), L, L2.
  do 2 eexists. split; [reflexivity|]. split; [reflexivity|].
  unfold tag_of. rewrite E. split; reflexivity.
Qed.

Lemma IndexBDMV_init_first_four_bytes_witness :
  exists r1 r2,
    IndexBDMV_init uhd_fs "disc/BDMV/INDEX.BDMV" = Ok r1 /\
    IndexBDMV_init backup_fs "disc/BDMV/INDEX.BDMV" = Ok r2 /\
    version r1 = version r2 /\ is_uhd r1 = is_uhd r2.
Proof.
  apply (IndexBDMV_init_first_four_bytes uhd_fs backup_fs
           "disc/BDMV/INDEX.BDMV" "disc/BDMV/INDEX.BDMV" uhd_content (b "INDX0200")).
  - reflexivity.
  - reflexivity.
  - simpl. lia.
  - reflexivity.
Defined.

Lemma IndexBDMV_init_Ok_tag (fs : filesystem) (f : string) (r : IndexBDMV) (v : string) :
  IndexBDMV_init fs f = Ok r -> version r = Some v -> exists c, v = tag_of c.
Proof.
  intros H V. destruct (IndexBDMV_init_Ok_inv fs f r H) as [c Hc].
  rewrite (IndexBDMV_init_file fs f c Hc) in H.
  destruct (Nat.leb 4 (List.length c)); injection H as <-; simpl in V.
  - injection V as <-. exists c. reflexivity.
  - discriminate.
Qed.

Lemma list_ascii_of_string_app (s t : string) :
  list_ascii_of_string (s ++ t) = list_ascii_of_string s ++ list_ascii_of_string t.
Proof. induction s as [|c s IH]; simpl; [reflexivity | rewrite IH; reflexivity]. Qed.

(** What [rstrip] returns is a prefix of its argument. *)
Lemma rstrip_prefix (chars s : string) : exists t, s = (rstrip chars s ++ t)%string.
Proof.
  induction s as [|c s [t IH]]; simpl.
  - exists EmptyString. reflexivity.
  - destruct (rstrip chars s) as [|d r].
    + destruct (mem_char c chars).
      * exists (String c s). reflexivity.
      * exists t. simpl. rewrite IH at 1. reflexivity.
    + exists t. simpl. rewrite IH at 1. reflexivity.
Qed.

(** What [rstrip] returns does not end in a stripped character. *)
Lemma rstrip_last (chars s : string) :
  forall (t : string) (c : ascii),
    rstrip chars s = (t ++ String c EmptyString)%string -> mem_char c chars = false.
Proof.
  induction s as [|a s IH]; intros t c; simpl.
  - destruct t; discriminate.
  - destruct (rstrip chars s) as [|d r] eqn:E.
    + destruct (mem_char a chars) eqn:M.
      * destruct t; discriminate.
      * destruct t as [|x t]; simpl; intros H.
        -- injection H as <-. exact M.
        -- injection H as _ H. destruct t; discriminate.
    + destruct t as [|x t]; simpl; intros H.
      * discriminate.
      * injection H as _ H. exact (IH t c H).
Qed.

Lemma N_of_ascii_of_byte (x : byte) : N_of_ascii (ascii_of_byte x) = Byte.to_N x.
Proof. destruct x; reflexivity. Qed.

Lemma lossy_ascii_decode_chars (bs : list byte) :
  Forall (fun ch => (N_of_ascii ch < 128)%N) (list_ascii_of_string (lossy_ascii_decode bs)).
Proof.
  unfold lossy_ascii_decode. rewrite list_ascii_of_string_of_list_ascii.
  apply Forall_forall. intros ch H.
  apply in_map_iff in H as (x & <- & H). apply filter_In in H as [_ H].
  rewrite N_of_ascii_of_byte. apply N.ltb_lt. exact H.
Qed.

(** X3: a version that the constructor stores holds ASCII characters only
    (each below 128) and does not end in a null character. *)
Theorem version_is_ascii_without_trailing_nul
        (fs : filesystem) (f : string) (r : IndexBDMV) (v : string) :
  IndexBDMV_init fs f = Ok r ->
  version r = Some v ->
  Forall (fun ch => (N_of_ascii ch < 128)%N) (list_ascii_of_string v) /\
  forall t, v <> (t ++ NUL)%string.
Proof.
  intros H V. destruct (IndexBDMV_init_Ok_tag fs f r v H V) as [c ->].
  unfold tag_of. split.
  - destruct (rstrip_prefix NUL (lossy_ascii_decode (firstn 4 c))) as [t E].
    pose proof (lossy_ascii_decode_chars (firstn 4 c)) as F.
    rewrite E, list_ascii_of_string_app in F.
    apply Forall_app in F. tauto.
  - intros t E. apply rstrip_last in E. discriminate.
Qed.

Lemma version_is_ascii_without_trailing_nul_witness :
  IndexBDMV_init uhd_fs "disc/BDMV/INDEX.BDMV" = Ok uhd_index /\
  version uhd_index = Some "INDX" /\
  Forall (fun ch => (N_of_ascii ch < 128)%N) (list_ascii_of_string "INDX") /\
  forall t, "INDX" <> (t ++ NUL)%string.
Proof.
  split; [reflexivity|]. split; [reflexivity|].
  apply (version_is_ascii_without_trailing_nul uhd_fs "disc/BDMV/INDEX.BDMV" uhd_index).
  - reflexivity.
  - reflexivity.
Defined.

Lemma rstrip_unchanged (chars s : string) (c : ascii) :
  mem_char c chars = false ->
  rstrip chars (s ++ String c EmptyString) = (s ++ String c EmptyString)%string.
Proof.
  intros M. induction s as [|a s IH]; simpl.
  - rewrite M. reflexivity.
  - rewrite IH. destruct s; reflexivity.
Qed.

Lemma ascii_of_byte_not_nul (x : byte) : x <> x00 -> mem_char (ascii_of_byte x) NUL = false.
Proof.
  intros N. rewrite mem_char_NUL. unfold is_nul. apply Ascii.eqb_neq. intros E.
  apply N. rewrite <- (byte_of_ascii_of_byte x), E. reflexivity.
Qed.

(** X4: when the first four bytes are ASCII and the fourth is not null, the
    version is exactly those four bytes: encoding it gives them back. *)
Theorem version_round_trip (fs : filesystem) (f : string) (c : list byte) :
  os_resolve fs f = Some (File c) ->
  4 <= List.length c ->
  Forall (fun x => is_ascii_byte x = true) (firstn 4 c) ->
  nth 3 c x00 <> x00 ->
  exists r v, IndexBDMV_init fs f = Ok r /\ version r = Some v /\
              list_byte_of_string v = firstn 4 c.
Proof.
  intros H L A N. rewrite (IndexBDMV_init_file fs f c H).
  destruct c as [|b0 [|b1 [|b2 [|b3 c]]]]; simpl in L; try lia.
  simpl in N. cbn [firstn] in A.
  inversion A as [|? ? A0 A']; subst. inversion A' as [|? ? A1 A'']; subst.
  inversion A'' as [|? ? A2 A''']; subst. inversion A''' as [|? ? A3 _]; subst.
  do 2 eexists. split; [reflexivity|]. split; [reflexivity|].
  unfold tag_of, lossy_ascii_decode. cbn [firstn filter].
  rewrite A0, A1, A2, A3. cbn [map string_of_list_ascii].
  change (String (ascii_of_byte b0) (String (ascii_of_byte b1)
            (String (ascii_of_byte b2) (String (ascii_of_byte b3) EmptyString))))
    with (String (ascii_of_byte b0) (String (ascii_of_byte b1)
            (String (ascii_of_byte b2) EmptyString)) ++ String (ascii_of_byte b3) EmptyString)%string.
  rewrite (rstrip_unchanged NUL _ _ (ascii_of_byte_not_nul b3 N)).
  change (list_byte_of_string (string_of_list_byte [b0; b1; b2; b3]) = [b0; b1; b2; b3]).
  apply list_byte_of_string_of_list_byte.
Qed.

Lemma version_round_trip_witness :
  exists r v, IndexBDMV_init uhd_fs "disc/BDMV/INDEX.BDMV" = Ok r /\ version r = Some v /\
              list_byte_of_string v = firstn 4 uhd_content.
Proof.
  apply (version_round_trip uhd_fs "disc/BDMV/INDEX.BDMV" uhd_content).
  - reflexivity.
  - simpl. lia.
  - repeat constructor.
  - discriminate.
Defined.

(** ** [__repr__] *)

Lemma IndexBDMV_init_is_uhd_false (fs : filesystem) (f : string) (r : IndexBDMV) :
  IndexBDMV_init fs f = Ok r -> is_uhd r = false.
Proof.
  intros H. destruct (IndexBDMV_init_Ok_inv fs f r H) as [c Hc].
  rewrite (IndexBDMV_init_file fs f c Hc) in H.
  destruct (Nat.leb 4 (List.length c)); injection H as <-; simpl.
  - apply tag_of_not_INDX0300.
  - reflexivity.
Qed.

Lemma IndexBDMV_repr_shape (r : IndexBDMV) :
  IndexBDMV_repr r =
  ("<IndexBDMV version='" ++ format_version (version r) ++
   "', is_uhd=" ++ format_bool (is_uhd r) ++ ">")%string.
Proof.
  unfold IndexBDMV_repr. cbn [String.concat].
  rewrite !string_app_assoc. reflexivity.
Qed.

(** X5: the representation of an object that the constructor returned is
    ["<IndexBDMV version='...', is_uhd=False>"] around the version, with
    [None] for an absent one: it never shows [is_uhd=True] and never the
    file name. *)
Theorem IndexBDMV_repr_of_constructed (fs : filesystem) (f : string) (r : IndexBDMV) :
  IndexBDMV_init fs f = Ok r ->
  IndexBDMV_repr r =
  ("<IndexBDMV version='" ++ format_version (version r) ++ "', is_uhd=False>")%string.
Proof.
  intros H. rewrite IndexBDMV_repr_shape, (IndexBDMV_init_is_uhd_false fs f r H).
  reflexivity.
Qed.

Lemma IndexBDMV_repr_of_constructed_witness :
  IndexBDMV_init uhd_fs "disc/BDMV/INDEX.BDMV" = Ok uhd_index /\
  IndexBDMV_repr uhd_index = "<IndexBDMV version='INDX', is_uhd=False>".
Proof.
  split; [reflexivity|].
  apply (IndexBDMV_repr_of_constructed uhd_fs "disc/BDMV/INDEX.BDMV" uhd_index).
  reflexivity.
Defined.

Lemma string_app_inv_head (p s t : string) : (p ++ s = p ++ t)%string -> s = t.
Proof.
  induction p as [|c p IH]; simpl; [tauto|].
  intros H. injection H as H. exact (IH H).
Qed.

Lemma list_ascii_of_string_inj (s t : string) :
  list_ascii_of_string s = list_ascii_of_string t -> s = t.
Proof.
  intros H. rewrite <- (string_of_list_ascii_of_string s), H.
  apply string_of_list_ascii_of_string.
Qed.

(** X6: the representation determines [is_uhd] and the rendered version: two
    objects with the same representation agree on both. *)
Theorem IndexBDMV_repr_determines (r1 r2 : IndexBDMV) :
  IndexBDMV_repr r1 = IndexBDMV_repr r2 ->
  is_uhd r1 = is_uhd r2 /\
  format_version (version r1) = format_version (version r2).
Proof.
  rewrite !IndexBDMV_repr_shape. intros H.
  apply string_app_inv_head in H.
  apply (f_equal list_ascii_of_string) in H.
  rewrite !list_ascii_of_string_app in H.
  apply (f_equal (@rev ascii)) in H. rewrite !rev_app_distr in H.
  destruct (is_uhd r1), (is_uhd r2); simpl in H; try congruence.
  - split; [reflexivity|]. injection H as H.
    apply (f_equal (@rev ascii)) in H. rewrite !rev_involutive in H.
    exact (list_ascii_of_string_inj _ _ H).
  - split; [reflexivity|]. injection H as H.
    apply (f_equal (@rev ascii)) in H. rewrite !rev_involutive in H.
    exact (list_ascii_of_string_inj _ _ H).
Qed.

Lemma IndexBDMV_repr_determines_witness :
  is_uhd uhd_index = is_uhd {| filename := "copy"; is_uhd := false; version := Some "INDX" |} /\
  format_version (version uhd_index) = format_version (Some "INDX").
Proof.
  apply (IndexBDMV_repr_determines uhd_index
           {| filename := "copy"; is_uhd := false; version := Some "INDX" |}).
  reflexivity.
Defined.

(** X7: the representation cannot tell an absent version from the version
    ["None"]: a file shorter than four bytes and a file that starts with the
    bytes [b"None"] give objects with different versions and the same
    representation. *)
Theorem IndexBDMV_repr_None_ambiguous
        (fs1 fs2 : filesystem) (f1 f2 : string) (c1 c2 : list byte) :
  os_resolve fs1 f1 = Some (File c1) ->
  List.length c1 < 4 ->
  os_resolve fs2 f2 = Some (File c2) ->
  firstn 4 c2 = b "None" ->
  exists r1 r2,
    IndexBDMV_init fs1 f1 = Ok r1 /\ IndexBDMV_init fs2 f2 = Ok r2 /\
    version r1 = None /\ version r2 = Some "None" /\
    IndexBDMV_repr r1 = IndexBDMV_repr r2.
Proof.
  intros H1 L1 H2 E.
  assert (L2 : Nat.leb 4 (List.length c2) = true).
  { apply firstn_4_length. rewrite E. reflexivity. }
  apply Nat.leb_gt in L1.
  rewrite (IndexBDMV_init_file fs1 f1 c1 H1), (IndexBDMV_init_file fs2 f2 c2 H2), L1, L2.
  do 2 eexists. split; [reflexivity|]. split; [reflexivity|].
  unfold tag_of. rewrite E. repeat split.
Qed.

Lemma IndexBDMV_repr_None_ambiguous_witness :
  exists r1 r2,
    IndexBDMV_init none_fs "EMPTY.BDMV" = Ok r1 /\
    IndexBDMV_init none_fs "INDEX.BDMV" = Ok r2 /\
    version r1 = None /\ version r2 = Some "None" /\
    IndexBDMV_repr r1 = IndexBDMV_repr r2.
Proof.
  apply (IndexBDMV_repr_None_ambiguous none_fs none_fs "EMPTY.BDMV" "INDEX.BDMV"
           [] (b "None0300")).
  - reflexivity.
  - simpl. lia.
  - reflexivity.
  - reflexivity.
Defined.

(** ** [find_index_file], beyond the order of the candidates *)

Lemma resolve_path_child_of_file (fs : filesystem) (p : PurePath) (name : string)
      (c : list byte) :
  resolve_path fs p = Some (File c) ->
  resolve_path fs (make_child_relpath p name) = None.
Proof.
  unfold resolve_path. cbn [root parts make_child_relpath].
  destruct (start_of fs (root p)) as [[|[c0|es] up]|]; try discriminate.
  rewrite walk_app.
  destruct (walk (Dir es :: up) (parts p)) as [[|n st]|]; try discriminate.
  intros H. injection H as ->. reflexivity.
Qed.

Lemma os_resolve_child_of_file (fs : filesystem) (p : PurePath) (name : string)
      (c : list byte) :
  wf_path p -> valid_part name = true ->
  os_resolve fs (str p) = Some (File c) ->
  os_resolve fs (str (make_child_relpath p name)) = None.
Proof.
  intros Hp Hn.
  rewrite (os_resolve_str fs p Hp),
          (os_resolve_str fs _ (make_child_relpath_wf p name Hp Hn)).
  apply resolve_path_child_of_file.
Qed.

(** X8: when the argument is an existing regular file, and [os.stat] does
    not fail on it or on the two fixed candidates with an errno that
    [pathlib] raises, [find_index_file] returns [None]. *)
Theorem find_index_file_regular_file
        (pf : platform) (fs : filesystem) (directory : string) (c : list byte) :
  os_resolve fs (str (Path directory)) = Some (File c) ->
  stat_quiet pf (str (Path directory)) ->
  stat_quiet pf (str (Path directory // "BDMV" // "INDEX.BDMV")) ->
  stat_quiet pf (str (Path directory // "INDEX.BDMV")) ->
  find_index_file pf fs directory = Ok None.
Proof.
  intros R Q Q1 Q2. unfold find_index_file.
  assert (D : is_dir pf fs (Path directory) = Ok false).
  { apply is_dir_of_non_directory; [|exact Q].
    unfold os_path_isdir. rewrite R. reflexivity. }
  rewrite !(rglob_not_a_directory pf fs _ _ D).
  pose proof (Path_wf directory) as W.
  rewrite div_BDMV, !div_INDEX_BDMV in *.
  pose proof (os_resolve_child_of_file fs _ "BDMV" c W eq_refl R) as R1.
  pose proof (os_resolve_child_None fs _ "INDEX.BDMV"
                (make_child_relpath_wf _ "BDMV" W eq_refl) eq_refl R1) as R2.
  pose proof (os_resolve_child_of_file fs _ "INDEX.BDMV" c W eq_refl R) as R3.
  rewrite (exists_of_absent pf fs _ R2 Q1). cbn [bind].
  rewrite (exists_of_absent pf fs _ R3 Q2). reflexivity.
Qed.

Lemma find_index_file_regular_file_witness :
  os_resolve file_fs (str (Path "disc")) = Some (File (b "INDX0200")) /\
  find_index_file (posix 1000 file_fs) file_fs "disc" = Ok None.
Proof.
  split; [reflexivity|].
  apply (find_index_file_regular_file (posix 1000 file_fs) file_fs "disc" (b "INDX0200"));
    [reflexivity | apply stat_quiet_of_None; reflexivity ..].
Defined.

(** X9: a path that [find_index_file] returns lies under the directory given
    and its last component is [INDEX.BDMV] or [index.bdmv], in exactly one
    of these two spellings. *)
Theorem find_index_file_under_directory
        (pf : platform) (fs : filesystem) (directory path : string) :
  find_index_file pf fs directory = Ok (Some path) ->
  exists ds name,
    (name = "INDEX.BDMV" \/ name = "index.bdmv") /\
    path = str {| root := root (Path directory);
                  parts := parts (Path directory) ++ ds ++ [name] |}.
Proof.
  unfold find_index_file. rewrite div_BDMV, !div_INDEX_BDMV.
  destruct (exists_ pf fs _) as [[|]|e]; cbn [bind]; [| |discriminate].
  { intros H. injection H as <-. exists ["BDMV"], "INDEX.BDMV". split; [auto|].
    unfold make_child_relpath. cbn [root parts]. rewrite <- app_assoc. reflexivity. }
  destruct (exists_ pf fs _) as [[|]|e]; cbn [bind]; [| |discriminate].
  { intros H. injection H as <-. exists [], "INDEX.BDMV". split; [auto|]. reflexivity. }
  destruct (rglob pf fs (Path directory) "INDEX.BDMV") as [|q g|e] eqn:E3;
    [| |discriminate].
  - destruct (rglob pf fs (Path directory) "index.bdmv") as [|q g|e] eqn:E4;
      [discriminate| |discriminate].
    intros H. injection H as <-.
    destruct (rglob_head_sound pf fs _ q _ g E4) as [_ [ds ->]].
    exists ds, "index.bdmv". auto.
  - intros H. injection H as <-.
    destruct (rglob_head_sound pf fs _ q _ g E3) as [_ [ds ->]].
    exists ds, "INDEX.BDMV". auto.
Qed.

Lemma find_index_file_under_directory_witness :
  exists ds name,
    (name = "INDEX.BDMV" \/ name = "index.bdmv") /\
    "disc/a/b/INDEX.BDMV" =
    str {| root := root (Path "disc"); parts := parts (Path "disc") ++ ds ++ [name] |}.
Proof.
  apply (find_index_file_under_directory (posix 1000 deep_fs) deep_fs "disc"
           "disc/a/b/INDEX.BDMV").
  reflexivity.
Defined.

Lemma posix_listings_allowed (limit : nat) (fs : filesystem) :
  listings_allowed (posix limit fs).
Proof.
  intros s errno H. cbn [scandir_fault posix] in H.
  destruct (Nat.leb PATH_MAX (String.length s)); [|discriminate H].
  injection H as <-. reflexivity.
Qed.

(** X10: [find_index_file] does not miss an index file: when [os.stat]
    succeeds on an existing directory and on an entry called [INDEX.BDMV] or
    [index.bdmv] any number of directories below it, and no directory
    listing is denied, the answer is never [None]: it is a path, or an
    exception is raised. *)
Theorem find_index_file_exhaustive (pf : platform) (fs : filesystem) (directory : string)
        (es es' : list (string * node)) (ds : list string) (name : string) (c : node) :
  listings_allowed pf ->
  stat_fault pf (str (Path directory)) = None ->
  os_resolve fs (str (Path directory)) = Some (Dir es) ->
  Forall (fun x => entry_name x = true) ds ->
  descend (Dir es) ds = Some (Dir es') ->
  name = "INDEX.BDMV" \/ name = "index.bdmv" ->
  lookup_entry name es' = Some c ->
  stat_fault pf (str {| root := root (Path directory);
                        parts := parts (Path directory) ++ ds ++ [name] |}) = None ->
  find_index_file pf fs directory <> Ok None.
Proof.
  intros A S R F D N L T.
  assert (V : entry_name name = true) by (destruct N as [-> | ->]; reflexivity).
  pose proof (rglob_not_Done pf fs (Path directory) es es' ds name c
                A (Path_wf directory) S R F V D L T) as H.
  unfold find_index_file.
  destruct (exists_ pf fs _) as [[|]|e]; cbn [bind]; try discriminate.
  destruct (exists_ pf fs _) as [[|]|e]; cbn [bind]; try discriminate.
  destruct (rglob pf fs (Path directory) "INDEX.BDMV") as [|q g|e] eqn:E3;
    try discriminate.
  destruct (rglob pf fs (Path directory) "index.bdmv") as [|q g|e] eqn:E4;
    try discriminate.
  destruct N as [-> | ->]; contradiction.
Qed.

Lemma find_index_file_exhaustive_witness :
  find_index_file (posix 1000 lower_fs) lower_fs "disc" <> Ok None.
Proof.
  apply (find_index_file_exhaustive (posix 1000 lower_fs) lower_fs "disc"
           [("bdmv", Dir [("index.bdmv", File (b "INDX0200"))])]
           [("index.bdmv", File (b "INDX0200"))]
           ["bdmv"] "index.bdmv" (File (b "INDX0200"))).
  - apply posix_listings_allowed.
  - reflexivity.
  - reflexivity.
  - repeat constructor.
  - reflexivity.
  - right. reflexivity.
  - reflexivity.
  - reflexivity.
Defined.

(** X11: the upper-case spelling wins: when [os.stat] succeeds on an
    existing directory and on an entry called [INDEX.BDMV] anywhere below
    it, and no directory listing is denied, whatever [find_index_file]
    returns is a path that ends in [INDEX.BDMV], also when an [index.bdmv]
    is nearer. *)
Theorem find_index_file_prefers_upper_case
        (pf : platform) (fs : filesystem) (directory : string)
        (es es' : list (string * node)) (ds : list string) (c : node)
        (found : option string) :
  listings_allowed pf ->
  stat_fault pf (str (Path directory)) = None ->
  os_resolve fs (str (Path directory)) = Some (Dir es) ->
  Forall (fun x => entry_name x = true) ds ->
  descend (Dir es) ds = Some (Dir es') ->
  lookup_entry "INDEX.BDMV" es' = Some c ->
  stat_fault pf (str {| root := root (Path directory);
                        parts := parts (Path directory) ++ ds ++ ["INDEX.BDMV"] |})
    = None ->
  find_index_file pf fs directory = Ok found ->
  exists ds',
    found = Some (str {| root := root (Path directory);
                         parts := parts (Path directory) ++ ds' ++ ["INDEX.BDMV"] |}).
Proof.
  intros A S R F D L T.
  pose proof (rglob_not_Done pf fs (Path directory) es es' ds "INDEX.BDMV" c
                A (Path_wf directory) S R F eq_refl D L T) as H.
  unfold find_index_file. rewrite div_BDMV, !div_INDEX_BDMV.
  destruct (exists_ pf fs _) as [[|]|e]; cbn [bind]; [| |discriminate].
  { intros E. injection E as <-. exists ["BDMV"].
    unfold make_child_relpath. cbn [root parts]. rewrite <- app_assoc. reflexivity. }
  destruct (exists_ pf fs _) as [[|]|e]; cbn [bind]; [| |discriminate].
  { intros E. injection E as <-. exists []. reflexivity. }
  destruct (rglob pf fs (Path directory) "INDEX.BDMV") as [|q g|e] eqn:E3;
    [contradiction| |discriminate].
  intros E. injection E as <-.
  destruct (rglob_head_sound pf fs _ q _ g E3) as [_ [ds' ->]].
  exists ds'. reflexivity.
Qed.

Lemma find_index_file_prefers_upper_case_witness :
  exists ds',
    Some "disc/extras/menu/INDEX.BDMV" =
    Some (str {| root := root (Path "disc");
                 parts := parts (Path "disc") ++ ds' ++ ["INDEX.BDMV"] |}).
Proof.
  apply (find_index_file_prefers_upper_case (posix 1000 mixed_fs) mixed_fs "disc"
           [("bdmv", Dir [("index.bdmv", File (b "INDX0200"))]);
            ("extras", Dir [("menu", Dir [("INDEX.BDMV", File (b "INDX0100"))])])]
           [("INDEX.BDMV", File (b "INDX0100"))]
           ["extras"; "menu"] (File (b "INDX0100"))).
  - apply posix_listings_allowed.
  - reflexivity.
  - reflexivity.
  - repeat constructor.
  - reflexivity.
  - reflexivity.
  - reflexivity.
  - reflexivity.
Defined.

Example find_mixed :
  find_index_file (posix 1000 mixed_fs) mixed_fs "disc"
  = Ok (Some "disc/extras/menu/INDEX.BDMV").
Proof. reflexivity. Qed.

Lemma count_leading_sep_app (d t : string) :
  all_sep d = false -> count_leading_sep (d ++ t) = count_leading_sep d.
Proof.
  induction d as [|c d IH]; simpl; [discriminate|].
  destruct (Ascii.eqb c SEP); simpl; [|reflexivity].
  intros H. rewrite (IH H). reflexivity.
Qed.

Lemma Path_trailing_sep (d : string) :
  all_sep d = false -> Path (d ++ "/") = Path d.
Proof.
  intros H. unfold Path, splitroot.
  rewrite (count_leading_sep_app d "/" H).
  change "/" with (String SEP EmptyString).
  rewrite split_sep_app, filter_app. cbn [split_sep filter keep_part].
  simpl. rewrite app_nil_r. reflexivity.
Qed.

(** X12: a separator at the end of the directory argument changes nothing,
    unless the argument is empty or made of separators only (where it would
    turn the working directory into the root, or the root ["/"] into
    ["//"]). *)
Theorem find_index_file_trailing_separator
        (pf : platform) (fs : filesystem) (directory : string) :
  all_sep directory = false ->
  find_index_file pf fs (directory ++ "/") = find_index_file pf fs directory.
Proof.
  intros H. unfold find_index_file. rewrite (Path_trailing_sep directory H).
  reflexivity.
Qed.

Lemma find_index_file_trailing_separator_witness :
  all_sep "disc" = false /\
  find_index_file (posix 1000 deep_fs) deep_fs ("disc" ++ "/")
  = find_index_file (posix 1000 deep_fs) deep_fs "disc".
Proof.
  split; [reflexivity|].
  apply (find_index_file_trailing_separator (posix 1000 deep_fs) deep_fs "disc").
  reflexivity.
Defined.

Example find_empty_is_cwd_not_root :
  let fs := {| fs_root := fs_root deep_fs; fs_cwd := ["disc"; "a"] |} in
  find_index_file (posix 1000 fs) fs "" = Ok (Some "b/INDEX.BDMV") /\
  find_index_file (posix 1000 fs) fs "/" = Ok (Some "/disc/a/b/INDEX.BDMV").
Proof. split; reflexivity. Qed.

(** ** [is_uhd_disc] and the functions it combines *)

(** X13: [is_uhd_disc] never returns [True], whatever the file system, the
    platform and the directory: the constructor compares a tag of at most
    four characters with ["INDX0300"], so no index file makes [is_uhd]
    true. *)
Theorem is_uhd_disc_never_True (pf : platform) (fs : filesystem) (directory : string) :
  is_uhd_disc pf fs directory <> Ok true.
Proof.
  unfold is_uhd_disc.
  destruct (find_index_file pf fs directory) as [found|e]; cbn [bind]; [|discriminate].
  destruct (negb (truthy found)); [discriminate|].
  destruct found as [path|]; [|discriminate].
  destruct (IndexBDMV_init fs path) as [r|e] eqn:E; simpl; [|discriminate].
  rewrite (IndexBDMV_init_is_uhd_false fs path r E). discriminate.
Qed.
